(** * Extent writers of the update engine (extent_writer.h)

    A shallow embedding of the three classes of [extent_writer.h]:
    the abstract base [ExtentWriter], the [DirectExtentWriter] and the
    [ZeroPadExtentWriter] decorator, followed by the properties of the
    block-extent writing layer that are stated about them.

    Conventions.
    - [size_t] is taken 64 bits wide; its arithmetic wraps modulo [2^64]
      and is written out with [size_add] and [size_sub].
    - A buffer argument [(const void* bytes, size_t count)] is the list of
      the [count] bytes it denotes; [count] is the length of that list.
    - An object reached through a non-owning pointer (the wrapped writer of
      the decorator, the target of the direct writer) is kept inside the
      state of the object that holds the pointer and handed back with it.
    - A call that does not return to its caller with a value (an integer
      modulo by zero, which is undefined behaviour; an exception thrown by a
      container) is an outcome of its own, [Fault], and not a value. *)

From Stdlib Require Import String.
From Stdlib Require Import List PeanoNat NArith Lia Bool Strings.Byte.
Import ListNotations.
Open Scope N_scope.

Set Implicit Arguments.

(** ** Machine integers *)

Definition byte : Type := Byte.byte.

Definition SIZE_MODULUS : N := 2 ^ 64.
Definition UINT32_MODULUS : N := 2 ^ 32.

(** The largest size of an object ([PTRDIFF_MAX]): no buffer is longer. *)
Definition OBJECT_MAX : N := 2 ^ 63 - 1.

(** [a + b] on [size_t]. *)
Definition size_add (a b : N) : N := (a + b) mod SIZE_MODULUS.

(** [a - b] on [size_t], for operands below [2^64]. *)
Definition size_sub (a b : N) : N := (a + SIZE_MODULUS - b) mod SIZE_MODULUS.

(** [count] of a buffer argument. *)
Definition count_of (bytes : list byte) : N := N.of_nat (length bytes).

(** ** Outcomes *)

Inductive fault : Type :=
| ModuloByZero
| LengthError.

Inductive result (A : Type) : Type :=
| Ret (a : A)
| Fault (f : fault).

Arguments Ret {A} a.
Arguments Fault {A} f.

Definition bind {A B : Type} (m : result A) (k : A -> result B) : result B :=
  match m with
  | Ret a => k a
  | Fault f => Fault f
  end.

Notation "' pat <- m ;; k" :=
  (bind m (fun x => match x with pat => k end))
    (at level 61, pat pattern, m at next level, right associativity).

(** ** Extents and the target *)

(** Modelled from the spec: [Extent], declared in update_metadata.pb.h and
    not in extent_writer.h.  The spec has it as "a contiguous run of
    fixed-size blocks on the target, described by a starting block index and
    a block count". *)
Record Extent : Type := mkExtent {
  start_block : N;
  num_blocks : N
}.

(** Modelled from the spec: the hole sentinel, a constant declared outside
    extent_writer.h.  The spec says "a designated sentinel starting-block
    value denotes a hole"; the largest 64-bit value is taken for it. *)
Definition kSparseHole : N := 2 ^ 64 - 1.

Definition is_hole (e : Extent) : bool := start_block e =? kSparseHole.

(** Modelled from the spec: the target handle of file_descriptor.h, which is
    not part of extent_writer.h.  The spec asks of it "a positioned-write
    primitive: write N bytes starting at a given absolute byte offset,
    returning success/failure". *)
Class FileDescriptor (FD : Type) : Type := {
  pwrite : FD -> N -> list byte -> bool * FD
}.

(** A target that records every positioned write it is asked for and
    accepts them all. *)
Record TargetLog : Type := mkTargetLog {
  issued : list (N * list byte)
}.

#[global] Instance TargetLog_fd : FileDescriptor TargetLog := {
  pwrite t off data := (true, mkTargetLog (issued t ++ [(off, data)]))
}.

(** A target that refuses every positioned write. *)
Inductive BrokenTarget : Type := broken_target.

#[global] Instance BrokenTarget_fd : FileDescriptor BrokenTarget := {
  pwrite t _ _ := (false, t)
}.

(** The bytes of [data] paired with the target offsets they occupy when
    [data] is written at offset [off]. *)
Fixpoint addr_bytes (off : N) (data : list byte) : list (N * byte) :=
  match data with
  | [] => []
  | b :: rest => (off, b) :: addr_bytes (N.succ off) rest
  end.

(** Every byte a target was given, with its offset, in the order given. *)
Definition bytes_placed (t : TargetLog) : list (N * byte) :=
  flat_map (fun w => addr_bytes (fst w) (snd w)) (issued t).

(** ** The abstract base class *)

(** The three virtual member functions of [ExtentWriter], over the state [S]
    of a derived class.  [FileDescriptorPtr] may be null: [option FD]. *)
Class ExtentWriterOps (FD S : Type) : Type := {
  Init : S -> option FD -> list Extent -> N -> result (bool * S);
  Write : S -> list byte -> result (bool * S);
  EndImpl : S -> result (bool * S)
}.

Module ExtentWriter.

(** An object of a class derived from [ExtentWriter]: the private member
    of the base and the members of the derived class. *)
Record t (S : Type) : Type := mk {
  end_called_ : bool;
  derived : S
}.

Section Base.
Context {FD S : Type} `{ExtentWriterOps FD S}.

(** [ExtentWriter() : end_called_(false) {}] *)
Definition ctor (s : S) : t S := mk false s.

(** [virtual ~ExtentWriter()]: the lines written to the error log. *)
Definition dtor (w : t S) : list string :=
  if negb (end_called_ w) then ["End() not called on ExtentWriter."%string]
  else [].

(** A call of the virtual [Init] on the object. *)
Definition Init (w : t S) (fd : option FD) (extents : list Extent)
    (block_size : N) : result (bool * t S) :=
  '(r, s) <- Init (derived w) fd extents block_size ;;
  Ret (r, mk (end_called_ w) s).

(** A call of the virtual [Write] on the object. *)
Definition Write (w : t S) (bytes : list byte) : result (bool * t S) :=
  '(r, s) <- Write (derived w) bytes ;;
  Ret (r, mk (end_called_ w) s).

(** [bool End() { end_called_ = true; return EndImpl(); }] *)
Definition End (w : t S) : result (bool * t S) :=
  let w1 := mk true (derived w) in
  '(r, s) <- EndImpl (derived w1) ;;
  Ret (r, mk (end_called_ w1) s).

End Base.

End ExtentWriter.

(** ** DirectExtentWriter *)

Module DirectExtentWriter.

Record t (FD : Type) : Type := mk {
  fd_ : option FD;
  block_size_ : N;
  extent_bytes_written_ : N;
  extents_ : list Extent;
  next_extent_index_ : nat
}.

(** How a call of [Write] ended. *)
Inductive write_status : Type :=
| WriteDone
| ExhaustedExtents
| IoFailure
| NoTarget.

Section Direct.
Context {FD : Type} `{FileDescriptor FD}.

(** The constructor's member initializers. *)
Definition ctor : t FD := mk None 0 0 [] 0.

(** [Init]: records its three arguments and returns [true]. *)
Definition Init (w : t FD) (fd : option FD) (extents : list Extent)
    (block_size : N) : result (bool * t FD) :=
  Ret (true,
       mk fd block_size (extent_bytes_written_ w) extents
          (next_extent_index_ w)).

Definition advance (w : t FD) : t FD :=
  mk (fd_ w) (block_size_ w) 0 (extents_ w) (S (next_extent_index_ w)).

Definition consume (w : t FD) (fd : option FD) (chunk : N) : t FD :=
  mk fd (block_size_ w) (extent_bytes_written_ w + chunk) (extents_ w)
     (next_extent_index_ w).

(** Modelled from the spec: the loop of [DirectExtentWriter::Write],
    whose body is in extent_writer.cc and not in the header.  One
    iteration per unit of [fuel], following steps 1.a to 1.e of the
    spec's algorithm:
    - [count = 0] ends the loop with success;
    - no extent at the cursor is the exhausted-extents failure;
    - [remaining_in_extent = 0] moves the cursor to the next extent
      with [extent_bytes_written = 0] and iterates again;
    - otherwise [chunk = min(count, remaining_in_extent)] bytes are
      skipped for a hole, or written at
      [start_block * block_size + extent_bytes_written]; a failed
      positioned write ends the loop with failure, and so does a
      missing target;
    - the cursor and the buffer advance by [chunk].
    The spec's formulas are over the integers and so are these. *)
Fixpoint write_loop (fuel : nat) (w : t FD) (bytes : list byte)
    : option (write_status * t FD) :=
  match bytes with
  | [] => Some (WriteDone, w)
  | _ :: _ =>
    match fuel with
    | O => None
    | S fuel' =>
      match nth_error (extents_ w) (next_extent_index_ w) with
      | None => Some (ExhaustedExtents, w)
      | Some e =>
        let remaining_in_extent :=
          num_blocks e * block_size_ w - extent_bytes_written_ w in
        if remaining_in_extent =? 0 then write_loop fuel' (advance w) bytes
        else
          let chunk := N.min (count_of bytes) remaining_in_extent in
          let rest := skipn (N.to_nat chunk) bytes in
          if is_hole e then write_loop fuel' (consume w (fd_ w) chunk) rest
          else
            match fd_ w with
            | None => Some (NoTarget, w)
            | Some fd =>
              let offset :=
                start_block e * block_size_ w + extent_bytes_written_ w in
              let (ok, fd') :=
                pwrite fd offset (firstn (N.to_nat chunk) bytes) in
              if ok then write_loop fuel' (consume w (Some fd') chunk) rest
              else Some (IoFailure, consume w (Some fd') 0)
            end
      end
    end
  end.

(** A number of iterations no call needs more than: every iteration
    moves the cursor to the next extent or takes a byte off the
    buffer. *)
Definition iterations (w : t FD) (bytes : list byte) : nat :=
  S ((length (extents_ w) - next_extent_index_ w) + length bytes).

(** Modelled from the spec: [Write], which the header only declares, with
    the way it ended.  The loop always ends within [iterations] (lemma
    [write_loop_total]), so the second branch is never taken. *)
Definition Write_status (w : t FD) (bytes : list byte)
    : write_status * t FD :=
  match write_loop (iterations w bytes) w bytes with
  | Some r => r
  | None => (ExhaustedExtents, w)
  end.

Definition succeeded (s : write_status) : bool :=
  match s with
  | WriteDone => true
  | _ => false
  end.

(** [bool Write(const void* bytes, size_t count)]: [true] when the loop
    ended with success. *)
Definition Write (w : t FD) (bytes : list byte) : result (bool * t FD) :=
  let (s, w') := Write_status w bytes in
  Ret (succeeded s, w').

(** [bool EndImpl() { return true; }] *)
Definition EndImpl (w : t FD) : result (bool * t FD) := Ret (true, w).

End Direct.

End DirectExtentWriter.

#[global] Instance DirectExtentWriter_ops {FD : Type} `{FileDescriptor FD}
    : ExtentWriterOps FD (DirectExtentWriter.t FD) := {
  Init := DirectExtentWriter.Init;
  Write := DirectExtentWriter.Write;
  EndImpl := DirectExtentWriter.EndImpl
}.

(** ** ZeroPadExtentWriter *)

Module ZeroPadExtentWriter.

(** The wrapped writer is an object of some class [U] derived from
    [ExtentWriter]; the decorator holds a pointer to it. *)
Record t (U : Type) : Type := mk {
  underlying_extent_writer_ : ExtentWriter.t U;
  block_size_ : N;
  bytes_written_mod_block_size_ : N
}.

Section ZeroPad.
Context {FD U : Type} `{ExtentWriterOps FD U}.

(** The constructor's member initializers. *)
Definition ctor (underlying_extent_writer : ExtentWriter.t U) : t U :=
  mk underlying_extent_writer 0 0.

(** [block_size_ = block_size;
     return underlying_extent_writer_->Init(fd, extents, block_size);] *)
Definition Init (w : t U) (fd : option FD) (extents : list Extent)
    (block_size : N) : result (bool * t U) :=
  '(r, u) <- ExtentWriter.Init (underlying_extent_writer_ w) fd extents
               block_size ;;
  Ret (r, mk u block_size (bytes_written_mod_block_size_ w)).

(** [if (underlying_extent_writer_->Write(bytes, count)) {
       bytes_written_mod_block_size_ += count;
       bytes_written_mod_block_size_ %= block_size_;
       return true; }
     return false;] *)
Definition Write (w : t U) (bytes : list byte) : result (bool * t U) :=
  '(ok, u) <- ExtentWriter.Write (underlying_extent_writer_ w) bytes ;;
  if ok then
    let sum := size_add (bytes_written_mod_block_size_ w) (count_of bytes) in
    if block_size_ w =? 0 then Fault ModuloByZero
    else Ret (true, mk u (block_size_ w) (sum mod block_size_ w))
  else Ret (false, mk u (block_size_ w) (bytes_written_mod_block_size_ w)).

(** [return underlying_extent_writer_->End();] *)
Definition delegate_End (w : t U) : result (bool * t U) :=
  '(r, u) <- ExtentWriter.End (underlying_extent_writer_ w) ;;
  Ret (r, mk u (block_size_ w) (bytes_written_mod_block_size_ w)).

(** [chromeos::Blob zeros(write_size, 0)] *)
Definition zeros (write_size : N) : list byte :=
  repeat x00 (N.to_nat write_size).

(** [if (bytes_written_mod_block_size_) {
       const size_t write_size = block_size_ - bytes_written_mod_block_size_;
       chromeos::Blob zeros(write_size, 0);
       TEST_AND_RETURN_FALSE(underlying_extent_writer_->Write(zeros.data(),
                                                              write_size)); }
     return underlying_extent_writer_->End();]
    [TEST_AND_RETURN_FALSE(x)] returns [false] when [x] is false.
    [chromeos::Blob] is a [std::vector] of bytes: its constructor throws
    [std::length_error] when asked for more elements than an object can
    have, which is what [write_size] is after wrapping, when the counter is
    above the block size; no call is made on the wrapped writer then. *)
Definition EndImpl (w : t U) : result (bool * t U) :=
  if negb (bytes_written_mod_block_size_ w =? 0) then
    let write_size :=
      size_sub (block_size_ w) (bytes_written_mod_block_size_ w) in
    if OBJECT_MAX <? write_size then Fault LengthError
    else
      '(ok, u) <- ExtentWriter.Write (underlying_extent_writer_ w)
                    (zeros write_size) ;;
      let w1 := mk u (block_size_ w) (bytes_written_mod_block_size_ w) in
      if ok then delegate_End w1 else Ret (false, w1)
  else delegate_End w.

End ZeroPad.

End ZeroPadExtentWriter.

#[global] Instance ZeroPadExtentWriter_ops {FD U : Type}
    `{ExtentWriterOps FD U} : ExtentWriterOps FD (ZeroPadExtentWriter.t U) := {
  Init := ZeroPadExtentWriter.Init;
  Write := ZeroPadExtentWriter.Write;
  EndImpl := ZeroPadExtentWriter.EndImpl
}.

(** ** A writer that records the calls it receives *)

(** A call of a virtual member function, with its arguments and the value
    it returned. *)
Inductive call (FD : Type) : Type :=
| CallInit (fd : option FD) (extents : list Extent) (block_size : N) (r : bool)
| CallWrite (bytes : list byte) (count : N) (r : bool)
| CallEndImpl (r : bool).

Arguments CallWrite {FD} bytes count r.
Arguments CallEndImpl {FD} r.

(** A class derived from [ExtentWriter] that passes every call on to a
    writer [U] of any other class and notes it down with its result. *)
Module RecordingExtentWriter.

Record t (FD U : Type) : Type := mk {
  inner : U;
  calls : list (call FD)
}.

Section Recording.
Context {FD U : Type} `{ExtentWriterOps FD U}.

Definition ctor (u : U) : t FD U := mk u [].

Definition Init (w : t FD U) (fd : option FD) (extents : list Extent)
    (block_size : N) : result (bool * t FD U) :=
  '(r, u) <- Init (inner w) fd extents block_size ;;
  Ret (r, mk u (calls w ++ [CallInit fd extents block_size r])).

Definition Write (w : t FD U) (bytes : list byte)
    : result (bool * t FD U) :=
  '(r, u) <- Write (inner w) bytes ;;
  Ret (r, mk u (calls w ++ [CallWrite bytes (count_of bytes) r])).

Definition EndImpl (w : t FD U) : result (bool * t FD U) :=
  '(r, u) <- EndImpl (inner w) ;;
  Ret (r, mk u (calls w ++ [CallEndImpl r])).

End Recording.

End RecordingExtentWriter.

#[global] Instance RecordingExtentWriter_ops {FD U : Type}
    `{ExtentWriterOps FD U}
    : ExtentWriterOps FD (RecordingExtentWriter.t FD U) := {
  Init := RecordingExtentWriter.Init;
  Write := RecordingExtentWriter.Write;
  EndImpl := RecordingExtentWriter.EndImpl
}.

(** ** Sessions *)

(** The public operations of a writer. *)
Inductive operation (FD : Type) : Type :=
| OpInit (fd : option FD) (extents : list Extent) (block_size : N)
| OpWrite (bytes : list byte)
| OpEnd.

Arguments OpWrite {FD} bytes.
Arguments OpEnd {FD}.

Definition is_OpEnd {FD : Type} (o : operation FD) : bool :=
  match o with
  | OpEnd => true
  | _ => false
  end.

Section Sessions.
Context {FD S : Type} `{ExtentWriterOps FD S}.

Definition perform (w : ExtentWriter.t S) (o : operation FD)
    : result (bool * ExtentWriter.t S) :=
  match o with
  | OpInit fd extents block_size => ExtentWriter.Init w fd extents block_size
  | OpWrite bytes => ExtentWriter.Write w bytes
  | OpEnd => ExtentWriter.End w
  end.

(** The operations [ops] in turn, whatever each returns. *)
Fixpoint perform_all (w : ExtentWriter.t S) (ops : list (operation FD))
    : result (list bool * ExtentWriter.t S) :=
  match ops with
  | [] => Ret ([], w)
  | o :: rest =>
    '(r, w1) <- perform w o ;;
    '(rs, w2) <- perform_all w1 rest ;;
    Ret (r :: rs, w2)
  end.

(** The [Write] calls of a session, one per buffer. *)
Definition write_all (w : ExtentWriter.t S) (writes : list (list byte))
    : result (list bool * ExtentWriter.t S) :=
  perform_all w (map OpWrite writes).

(** What the caller of a whole session sees, and the writer it is left
    with. *)
Record outcome : Type := mkOutcome {
  init_result : bool;
  write_results : list bool;
  end_result : bool;
  final : ExtentWriter.t S
}.

(** One [Init], the [Write] calls, one [End]. *)
Definition session (w : ExtentWriter.t S) (fd : option FD)
    (extents : list Extent) (block_size : N) (writes : list (list byte))
    : result outcome :=
  '(r0, w0) <- ExtentWriter.Init w fd extents block_size ;;
  '(rs, w1) <- write_all w0 writes ;;
  '(re, w2) <- ExtentWriter.End w1 ;;
  Ret (mkOutcome r0 rs re w2).

End Sessions.

(** ** Quantities the properties are stated with *)

(** [block_size * sum(extent.count)] *)
Definition total_blocks (extents : list Extent) : N :=
  fold_right (fun e n => num_blocks e + n) 0 extents.

Definition capacity (block_size : N) (extents : list Extent) : N :=
  block_size * total_blocks extents.

(** Where the bytes of a logical stream belong: the extents in order, each
    taking the next [num_blocks * block_size] bytes at
    [start_block * block_size] onwards, a hole taking them nowhere.  [used]
    is the number of bytes the first extent holds already. *)
Fixpoint layout_from (block_size : N) (extents : list Extent) (used : N)
    (stream : list byte) : list (N * byte) :=
  match extents with
  | [] => []
  | e :: rest =>
    let room := N.to_nat (num_blocks e * block_size - used) in
    (if is_hole e then []
     else addr_bytes (start_block e * block_size + used) (firstn room stream))
    ++ layout_from block_size rest 0 (skipn room stream)
  end.

Definition layout (block_size : N) (extents : list Extent)
    (stream : list byte) : list (N * byte) :=
  layout_from block_size extents 0 stream.

(** The number of bytes of [writes] whose call returned [true]. *)
Fixpoint bytes_written (writes : list (list byte)) (results : list bool) : N :=
  match writes, results with
  | b :: writes', r :: results' =>
    (if r then count_of b else 0) + bytes_written writes' results'
  | _, _ => 0
  end.

(** The [Write] calls a wrapped writer receives when the buffers [writes] are
    passed on as they are. *)
Fixpoint forwarded {FD : Type} (writes : list (list byte))
    (results : list bool) : list (call FD) :=
  match writes, results with
  | b :: writes', r :: results' =>
    CallWrite b (count_of b) r :: forwarded writes' results'
  | _, _ => []
  end.

(** A block size that a [uint32_t] holds. *)
Definition is_uint32 (n : N) : Prop := n < UINT32_MODULUS.

(** Buffers that objects can hold. *)
Definition buffers_fit (writes : list (list byte)) : Prop :=
  Forall (fun b => count_of b <= OBJECT_MAX) writes.

(** What is left of the extents from a cursor on: the rest of the extent at
    the cursor, [used] bytes of which are taken, and the extents behind. *)
Definition room (block_size : N) (extents : list Extent) (used : N) : N :=
  match extents with
  | [] => 0
  | e :: rest => (num_blocks e * block_size - used) + capacity block_size rest
  end.

Definition cursor_room {FD : Type} (w : DirectExtentWriter.t FD) : N :=
  room (DirectExtentWriter.block_size_ w)
       (skipn (DirectExtentWriter.next_extent_index_ w)
              (DirectExtentWriter.extents_ w))
       (DirectExtentWriter.extent_bytes_written_ w).

(** Where the rest of a logical stream belongs, seen from a cursor. *)
Definition cursor_layout {FD : Type} (w : DirectExtentWriter.t FD)
    (stream : list byte) : list (N * byte) :=
  layout_from (DirectExtentWriter.block_size_ w)
              (skipn (DirectExtentWriter.next_extent_index_ w)
                     (DirectExtentWriter.extents_ w))
              (DirectExtentWriter.extent_bytes_written_ w) stream.

(** The bytes the target of a direct writer was given. *)
Definition placed_by (w : ExtentWriter.t (DirectExtentWriter.t TargetLog))
    : list (N * byte) :=
  match DirectExtentWriter.fd_ (ExtentWriter.derived w) with
  | Some t => bytes_placed t
  | None => []
  end.

(** The writer a zero-pad decorator object wraps, and the decorator's two
    other members. *)
Definition wrapped {U : Type} (w : ExtentWriter.t (ZeroPadExtentWriter.t U))
    : ExtentWriter.t U :=
  ZeroPadExtentWriter.underlying_extent_writer_ (ExtentWriter.derived w).

Definition zp_block_size {U : Type}
    (w : ExtentWriter.t (ZeroPadExtentWriter.t U)) : N :=
  ZeroPadExtentWriter.block_size_ (ExtentWriter.derived w).

Definition zp_counter {U : Type}
    (w : ExtentWriter.t (ZeroPadExtentWriter.t U)) : N :=
  ZeroPadExtentWriter.bytes_written_mod_block_size_ (ExtentWriter.derived w).

(** The calls a recording writer object has received. *)
Definition calls_of {FD U : Type}
    (w : ExtentWriter.t (RecordingExtentWriter.t FD U)) : list (call FD) :=
  RecordingExtentWriter.calls (ExtentWriter.derived w).

(** The counter of a decorator is zero before any write has succeeded and
    below the block size from then on. *)
Definition aligned_counter (block_size counter : N) : Prop :=
  counter = 0 \/ counter < block_size.

(** Two outcomes that are the same fault, or values related by [R]. *)
Definition agree {A B : Type} (R : A -> B -> Prop) (x : result A)
    (y : result B) : Prop :=
  match x, y with
  | Ret a, Ret b => R a b
  | Fault f, Fault g => f = g
  | _, _ => False
  end.

(** A decorator [d] of a decorator of a writer and a decorator [s] of the
    same writer, with the same block size and the same counter in all
    three decorators. *)
Definition stacked {U : Type}
    (d : ExtentWriter.t (ZeroPadExtentWriter.t (ZeroPadExtentWriter.t U)))
    (s : ExtentWriter.t (ZeroPadExtentWriter.t U)) : Prop :=
  wrapped (wrapped d) = wrapped s
  /\ zp_block_size d = zp_block_size s
  /\ zp_block_size (wrapped d) = zp_block_size s
  /\ zp_counter d = zp_counter s
  /\ zp_counter (wrapped d) = zp_counter s.

(** [EndImpl] of the decorator [w] gets as far as its last statement, with
    the wrapped writer then being [u]: nothing was to pad, or the buffer of
    zeros was built and the write of the padding returned [true]. *)
Definition reaches_delegation {FD U : Type} `{ExtentWriterOps FD U}
    (w : ZeroPadExtentWriter.t U) (u : ExtentWriter.t U) : Prop :=
  (ZeroPadExtentWriter.bytes_written_mod_block_size_ w = 0
   /\ u = ZeroPadExtentWriter.underlying_extent_writer_ w)
  \/ (ZeroPadExtentWriter.bytes_written_mod_block_size_ w <> 0
      /\ size_sub (ZeroPadExtentWriter.block_size_ w)
                  (ZeroPadExtentWriter.bytes_written_mod_block_size_ w)
         <= OBJECT_MAX
      /\ ExtentWriter.Write (ZeroPadExtentWriter.underlying_extent_writer_ w)
           (ZeroPadExtentWriter.zeros
              (size_sub (ZeroPadExtentWriter.block_size_ w)
                 (ZeroPadExtentWriter.bytes_written_mod_block_size_ w)))
         = Ret (true, u)).

(** A decorator of a recording writer around a direct writer on a recording
    target, all three as their constructors leave them. *)
Definition recorded_direct_writer
    : ExtentWriter.t
        (ZeroPadExtentWriter.t
           (RecordingExtentWriter.t TargetLog (DirectExtentWriter.t TargetLog))) :=
  ExtentWriter.ctor
    (ZeroPadExtentWriter.ctor
       (ExtentWriter.ctor (RecordingExtentWriter.ctor DirectExtentWriter.ctor))).

(** The session of the zero-pad correctness test: 4096 + 100 bytes in two
    calls, blocks of 4096 bytes, two blocks of room. *)
Definition unaligned_session
    : result (outcome (S := ZeroPadExtentWriter.t
                              (RecordingExtentWriter.t TargetLog
                                 (DirectExtentWriter.t TargetLog)))) :=
  session recorded_direct_writer (Some (mkTargetLog [])) [mkExtent 0 2] 4096
          [repeat x01 (N.to_nat 4096); repeat x02 (N.to_nat 100)].

(** The session of the zero-pad idempotence test: exactly 4096 bytes. *)
Definition aligned_session
    : result (outcome (S := ZeroPadExtentWriter.t
                              (RecordingExtentWriter.t TargetLog
                                 (DirectExtentWriter.t TargetLog)))) :=
  session recorded_direct_writer (Some (mkTargetLog [])) [mkExtent 0 2] 4096
          [repeat x01 (N.to_nat 4096)].

(** What the calls of a run returned, and the bytes a direct writer placed
    in it. *)
Definition results_of {A : Type} (r : result (list bool * A)) : list bool :=
  match r with
  | Ret (rs, _) => rs
  | Fault _ => []
  end.

Definition placed_of
    (r : result (list bool * ExtentWriter.t (DirectExtentWriter.t TargetLog)))
    : list (N * byte) :=
  match r with
  | Ret (_, w) => placed_by w
  | Fault _ => []
  end.

(** The state a call of [Write] keeps whatever happens. *)
Definition same_session {FD : Type} (w w' : DirectExtentWriter.t FD) : Prop :=
  DirectExtentWriter.block_size_ w' = DirectExtentWriter.block_size_ w
  /\ DirectExtentWriter.extents_ w' = DirectExtentWriter.extents_ w
  /\ (DirectExtentWriter.fd_ w <> None -> DirectExtentWriter.fd_ w' <> None).

(** The number of bytes a recording writer has accepted: the counts of the
    [Write] calls in its record that returned [true]. *)
Fixpoint bytes_accepted {FD : Type} (calls : list (call FD)) : N :=
  match calls with
  | [] => 0
  | CallWrite _ count true :: rest => count + bytes_accepted rest
  | _ :: rest => bytes_accepted rest
  end.

(** The number of bytes of the [Write] operations among [ops] whose call
    returned [true]. *)
Fixpoint ops_bytes {FD : Type} (ops : list (operation FD))
    (results : list bool) : N :=
  match ops, results with
  | o :: ops', r :: results' =>
    (match o with
     | OpWrite b => if r then count_of b else 0
     | _ => 0
     end) + ops_bytes ops' results'
  | _, _ => 0
  end.

(** An operation whose [Init] passes the block size [block_size] and whose
    [Write] passes a buffer no longer than an object can be. *)
Definition well_sized {FD : Type} (block_size : N) (o : operation FD) : Prop :=
  match o with
  | OpInit _ _ b => b = block_size
  | OpWrite bytes => count_of bytes <= OBJECT_MAX
  | OpEnd => True
  end.

(** The buffer [EndImpl] of the decorator [w] pads with. *)
Definition padding_of {U : Type}
    (w : ExtentWriter.t (ZeroPadExtentWriter.t U)) : list byte :=
  ZeroPadExtentWriter.zeros (size_sub (zp_block_size w) (zp_counter w)).

(** Two decorators on top of each other around a recording writer and a
    direct writer, with a second recording writer between the decorators: it
    notes the calls the outer decorator makes on the inner one. *)
Definition watched_stack
    : ExtentWriter.t
        (ZeroPadExtentWriter.t
           (RecordingExtentWriter.t TargetLog
              (ZeroPadExtentWriter.t
                 (RecordingExtentWriter.t TargetLog
                    (DirectExtentWriter.t TargetLog))))) :=
  ExtentWriter.ctor
    (ZeroPadExtentWriter.ctor
       (ExtentWriter.ctor
          (RecordingExtentWriter.ctor
             (ZeroPadExtentWriter.ctor
                (ExtentWriter.ctor
                   (RecordingExtentWriter.ctor DirectExtentWriter.ctor)))))).

(** Five bytes in two calls through [watched_stack], blocks of four bytes. *)
Definition watched_session :=
  session watched_stack (Some (mkTargetLog [])) [mkExtent 0 2] 4
          [[x01; x02; x03]; [x04; x05]].

(** A direct writer after [Init] with one block of four bytes and a [Write]
    of one byte. *)
Definition used_direct_writer : DirectExtentWriter.t TargetLog :=
  DirectExtentWriter.mk (Some (mkTargetLog [(0, [x09])])) 4 1 [mkExtent 0 1] 0.

(** Two bytes written to [used_direct_writer] in a new session over the
    same block leave one byte of room: a padding of two bytes is refused.
    The session through two decorators, and through one. *)
Definition refused_padding_stacked :=
  session
    (ExtentWriter.ctor
       (ZeroPadExtentWriter.ctor
          (ExtentWriter.ctor
             (ZeroPadExtentWriter.ctor
                (ExtentWriter.ctor
                   (RecordingExtentWriter.ctor (FD := TargetLog)
                      used_direct_writer))))))
    (Some (mkTargetLog [(0, [x09])])) [mkExtent 0 1] 4 [[x01; x02]].

Definition refused_padding_single :=
  session
    (ExtentWriter.ctor
       (ZeroPadExtentWriter.ctor
          (ExtentWriter.ctor
             (RecordingExtentWriter.ctor (FD := TargetLog)
                used_direct_writer))))
    (Some (mkTargetLog [(0, [x09])])) [mkExtent 0 1] 4 [[x01; x02]].

(** * Properties *)

Unset Implicit Arguments.

Module D := DirectExtentWriter.
Module ZP := ZeroPadExtentWriter.
Module Rec := RecordingExtentWriter.

(** ** The model on small sessions *)

(** Two extents of two and one blocks of four bytes; the second call
    crosses from the first extent into the second. *)
Example direct_crosses_extents :
  placed_of
    (perform_all (ExtentWriter.ctor D.ctor)
       [OpInit (Some (mkTargetLog [])) [mkExtent 5 2; mkExtent 10 1] 4;
        OpWrite [x01; x02; x03];
        OpWrite [x04; x05; x06; x07; x08; x09; x0a]])
  = [(20, x01); (21, x02); (22, x03); (23, x04); (24, x05); (25, x06);
     (26, x07); (27, x08); (40, x09); (41, x0a)].
Proof. reflexivity. Qed.

(** A hole takes its bytes of the stream and nothing is written for them. *)
Example direct_skips_hole :
  placed_of
    (perform_all (ExtentWriter.ctor D.ctor)
       [OpInit (Some (mkTargetLog [])) [mkExtent kSparseHole 1; mkExtent 3 1] 4;
        OpWrite [x01; x02; x03];
        OpWrite [x04; x05]])
  = [(12, x05)].
Proof. reflexivity. Qed.

(** One byte too many fails; an empty buffer succeeds even then. *)
Example direct_one_byte_too_many :
  results_of
    (perform_all (ExtentWriter.ctor D.ctor)
       [OpInit (Some (mkTargetLog [])) [mkExtent 7 1] 2;
        OpWrite [x01; x02];
        OpWrite [x03];
        OpWrite []])
  = [true; true; false; true].
Proof. reflexivity. Qed.

(** A target that refuses its writes makes [Write] fail. *)
Example direct_target_refuses :
  results_of
    (perform_all (ExtentWriter.ctor D.ctor)
       [OpInit (Some broken_target) [mkExtent 7 1] 2; OpWrite [x01]])
  = [true; false].
Proof. reflexivity. Qed.

(** Five bytes through a decorator with blocks of four: [End] adds three
    zero bytes. *)
Example decorator_pads_three :
  match perform_all
          (ExtentWriter.ctor (ZP.ctor (ExtentWriter.ctor D.ctor)))
          [OpInit (Some (mkTargetLog [])) [mkExtent 0 2] 4;
           OpWrite [x01; x02; x03];
           OpWrite [x04; x05];
           OpEnd]
  with
  | Ret (rs, w) =>
    rs = [true; true; true; true]
    /\ placed_by (wrapped w)
       = [(0, x01); (1, x02); (2, x03); (3, x04); (4, x05);
          (5, x00); (6, x00); (7, x00)]
  | Fault _ => False
  end.
Proof. split; reflexivity. Qed.

(** ** Lists of bytes and their offsets *)

Lemma count_of_app (a b : list byte) :
  count_of (a ++ b) = count_of a + count_of b.
Proof. unfold count_of. rewrite length_app. lia. Qed.

Lemma addr_bytes_app (off : N) (a b : list byte) :
  addr_bytes off (a ++ b) = addr_bytes off a ++ addr_bytes (off + count_of a) b.
Proof.
  revert off. induction a as [|x a IH]; intros off; simpl.
  - f_equal. unfold count_of. simpl. lia.
  - rewrite IH. do 3 f_equal. unfold count_of. simpl. lia.
Qed.

Lemma length_addr_bytes (off : N) (l : list byte) :
  length (addr_bytes off l) = length l.
Proof. revert off. induction l; intros; simpl; auto. Qed.

Lemma nth_error_addr_bytes (l : list byte) :
  forall (off : N) (i : nat) (b : byte),
    nth_error l i = Some b ->
    nth_error (addr_bytes off l) i = Some (off + N.of_nat i, b).
Proof.
  induction l as [|x l IH]; intros off [|i] b Hb; simpl in *; try discriminate.
  - inversion Hb. subst. f_equal. f_equal. lia.
  - rewrite (IH _ _ _ Hb). f_equal. f_equal. lia.
Qed.

Lemma skipn_cursor (A : Type) (l : list A) :
  forall (n : nat) (e : A),
    nth_error l n = Some e -> skipn n l = e :: skipn (S n) l.
Proof.
  induction l as [|x l IH]; intros [|n] e He; simpl in *; try discriminate.
  - inversion He. reflexivity.
  - apply IH. exact He.
Qed.

Lemma layout_from_nil (block_size : N) (extents : list Extent) :
  forall used, layout_from block_size extents used [] = [].
Proof.
  induction extents as [|e rest IH]; intros used; simpl; auto.
  rewrite firstn_nil, skipn_nil, IH. destruct (is_hole e); reflexivity.
Qed.

Lemma room_start (block_size : N) (extents : list Extent) :
  room block_size extents 0 = capacity block_size extents.
Proof.
  destruct extents as [|e rest];
    unfold room, capacity, total_blocks; cbn [fold_right]; lia.
Qed.

(** An extent that is full passes the whole stream on to the next one. *)
Lemma layout_from_full (block_size : N) (e : Extent) (rest : list Extent)
    (used : N) (stream : list byte) :
  num_blocks e * block_size - used = 0 ->
  layout_from block_size (e :: rest) used stream
  = layout_from block_size rest 0 stream.
Proof.
  intros Hfull. simpl. rewrite Hfull. simpl.
  destruct (is_hole e); reflexivity.
Qed.

(** The first [chunk] bytes of the stream go to the extent at the cursor;
    the others are laid out from the cursor moved by [chunk]. *)
Lemma layout_from_chunk (block_size : N) (e : Extent) (rest : list Extent)
    (used chunk : N) (bytes more : list byte) :
  chunk <= num_blocks e * block_size - used ->
  chunk <= count_of bytes ->
  layout_from block_size (e :: rest) used (bytes ++ more)
  = (if is_hole e then []
     else addr_bytes (start_block e * block_size + used)
                     (firstn (N.to_nat chunk) bytes))
    ++ layout_from block_size (e :: rest) (used + chunk)
                   (skipn (N.to_nat chunk) bytes ++ more).
Proof.
  intros Hroom Hlen. unfold count_of in Hlen.
  set (c := N.to_nat chunk).
  assert (Hc : (c <= length bytes)%nat) by (subst c; lia).
  assert (Hsplit : bytes ++ more = firstn c bytes ++ (skipn c bytes ++ more))
    by (rewrite app_assoc, firstn_skipn; reflexivity).
  assert (Hfc : length (firstn c bytes) = c) by (apply firstn_length_le; exact Hc).
  simpl.
  set (r := N.to_nat (num_blocks e * block_size - used)).
  replace (N.to_nat (num_blocks e * block_size - (used + chunk)))
    with (r - c)%nat by (subst r c; lia).
  assert (Hrc : (c <= r)%nat) by (subst r c; lia).
  rewrite Hsplit at 1 2.
  rewrite firstn_app, skipn_app, Hfc.
  rewrite (firstn_all2 (n := r) (firstn c bytes)) by lia.
  rewrite (skipn_all2 (n := r) (firstn c bytes)) by lia.
  simpl. destruct (is_hole e).
  - reflexivity.
  - rewrite addr_bytes_app, <- app_assoc. do 2 f_equal.
    f_equal. unfold count_of. rewrite Hfc. subst c. lia.
Qed.

(** ** The loop of the direct writer *)

Lemma cursor_room_advance (FD : Type) (w : D.t FD) (e : Extent) :
  nth_error (D.extents_ w) (D.next_extent_index_ w) = Some e ->
  num_blocks e * D.block_size_ w - D.extent_bytes_written_ w = 0 ->
  cursor_room (D.advance w) = cursor_room w.
Proof.
  intros Hnth Hfull. unfold cursor_room, D.advance. cbn [D.block_size_
    D.extents_ D.next_extent_index_ D.extent_bytes_written_].
  rewrite (skipn_cursor _ _ _ _ Hnth), room_start. cbn [room]. lia.
Qed.

Lemma cursor_room_consume (FD : Type) (w : D.t FD) (e : Extent)
    (fd : option FD) (chunk : N) :
  nth_error (D.extents_ w) (D.next_extent_index_ w) = Some e ->
  chunk <= num_blocks e * D.block_size_ w - D.extent_bytes_written_ w ->
  cursor_room (D.consume w fd chunk) = cursor_room w - chunk
  /\ chunk <= cursor_room w.
Proof.
  intros Hnth Hchunk. unfold cursor_room, D.consume. cbn [D.block_size_
    D.extents_ D.next_extent_index_ D.extent_bytes_written_].
  rewrite (skipn_cursor _ _ _ _ Hnth). cbn [room]. lia.
Qed.

Lemma cursor_room_end (FD : Type) (w : D.t FD) :
  nth_error (D.extents_ w) (D.next_extent_index_ w) = None ->
  cursor_room w = 0.
Proof.
  intros Hnth. unfold cursor_room. apply nth_error_None in Hnth.
  rewrite (skipn_all2 _ Hnth). reflexivity.
Qed.

Lemma count_of_skipn (chunk : N) (bytes : list byte) :
  chunk <= count_of bytes ->
  count_of (skipn (N.to_nat chunk) bytes) = count_of bytes - chunk.
Proof. unfold count_of. rewrite length_skipn. lia. Qed.

Section DirectLoop.
Context {FD : Type} `{FileDescriptor FD}.

Lemma same_session_refl (w : D.t FD) : same_session w w.
Proof. unfold same_session. auto. Qed.

Lemma same_session_trans (w1 w2 w3 : D.t FD) :
  same_session w1 w2 -> same_session w2 w3 -> same_session w1 w3.
Proof.
  unfold same_session. intros (Hb & He & Hf) (Hb' & He' & Hf').
  repeat split; try congruence. auto.
Qed.

(** The loop ends within the iterations it is given by [D.iterations]. *)
Lemma write_loop_total (fuel : nat) :
  forall (w : D.t FD) (bytes : list byte),
    (length (D.extents_ w) - D.next_extent_index_ w + length bytes < fuel)%nat ->
    exists r, D.write_loop fuel w bytes = Some r.
Proof.
  induction fuel as [|fuel IH]; intros w bytes Hfuel; [lia|].
  destruct bytes as [|b bytes']; [eexists; reflexivity|].
  cbn [D.write_loop].
  destruct (nth_error (D.extents_ w) (D.next_extent_index_ w)) as [e|] eqn:Hnth;
    [|eexists; reflexivity].
  assert (Hidx : (D.next_extent_index_ w < length (D.extents_ w))%nat)
    by (apply nth_error_Some; congruence).
  set (rem := num_blocks e * D.block_size_ w - D.extent_bytes_written_ w).
  destruct (rem =? 0) eqn:Hrem.
  - apply IH. cbn [D.advance D.extents_ D.next_extent_index_]. lia.
  - apply N.eqb_neq in Hrem.
    set (chunk := N.min (count_of (b :: bytes')) rem).
    assert (Hshort : (length (skipn (N.to_nat chunk) (b :: bytes'))
                      < length (b :: bytes'))%nat).
    { rewrite length_skipn. subst chunk. unfold count_of.
      cbn [length]. lia. }
    destruct (is_hole e).
    + apply IH. cbn [D.consume D.extents_ D.next_extent_index_]. lia.
    + destruct (D.fd_ w) as [fd|]; [|eexists; reflexivity].
      destruct (pwrite fd _ _) as [ok fd'].
      destruct ok; [|eexists; reflexivity].
      apply IH. cbn [D.consume D.extents_ D.next_extent_index_]. lia.
Qed.

Hypothesis reliable :
  forall (fd : FD) (off : N) (data : list byte),
    fst (pwrite fd off data) = true.

(** On a target that accepts every write, the loop succeeds when the
    buffer fits into what is left of the extents, and fails with the
    exhausted-extents condition when it does not. *)
Lemma write_loop_status (fuel : nat) :
  forall (w : D.t FD) (bytes : list byte),
    (length (D.extents_ w) - D.next_extent_index_ w + length bytes < fuel)%nat ->
    D.fd_ w <> None ->
    exists w',
      same_session w w'
      /\ (count_of bytes <= cursor_room w ->
          D.write_loop fuel w bytes = Some (D.WriteDone, w')
          /\ cursor_room w' = cursor_room w - count_of bytes)
      /\ (cursor_room w < count_of bytes ->
          D.write_loop fuel w bytes = Some (D.ExhaustedExtents, w')).
Proof.
  induction fuel as [|fuel IH]; intros w bytes Hfuel Hfd; [lia|].
  destruct bytes as [|b bytes'].
  { exists w. split; [apply same_session_refl|]. unfold count_of. cbn.
    split; intros; [split; [reflexivity|lia] | lia]. }
  cbn [D.write_loop].
  destruct (nth_error (D.extents_ w) (D.next_extent_index_ w)) as [e|] eqn:Hnth.
  2:{ exists w. split; [apply same_session_refl|].
      rewrite (cursor_room_end _ _ Hnth). unfold count_of. cbn [length].
      split; intros; [lia | reflexivity]. }
  assert (Hidx : (D.next_extent_index_ w < length (D.extents_ w))%nat)
    by (apply nth_error_Some; congruence).
  set (rem := num_blocks e * D.block_size_ w - D.extent_bytes_written_ w).
  destruct (rem =? 0) eqn:Hrem.
  - apply N.eqb_eq in Hrem.
    destruct (IH (D.advance w) (b :: bytes')) as (w' & Hs & Hfit & Hover).
    + cbn [D.advance D.extents_ D.next_extent_index_]. lia.
    + exact Hfd.
    + rewrite (cursor_room_advance _ _ _ Hnth Hrem) in Hfit, Hover.
      exists w'. split; [|split; assumption].
      eapply same_session_trans; [|exact Hs].
      unfold same_session. cbn. auto.
  - apply N.eqb_neq in Hrem.
    set (chunk := N.min (count_of (b :: bytes')) rem).
    assert (Hchunk : chunk <= rem) by (subst chunk; lia).
    assert (Hlen : chunk <= count_of (b :: bytes')) by (subst chunk; lia).
    assert (Hshort : (length (skipn (N.to_nat chunk) (b :: bytes'))
                      < length (b :: bytes'))%nat).
    { rewrite length_skipn. subst chunk. unfold count_of.
      cbn [length]. lia. }
    assert (Hstep : forall fd' : option FD, fd' <> None ->
      exists w',
        same_session w w'
        /\ (count_of (b :: bytes') <= cursor_room w ->
            D.write_loop fuel (D.consume w fd' chunk)
              (skipn (N.to_nat chunk) (b :: bytes')) = Some (D.WriteDone, w')
            /\ cursor_room w' = cursor_room w - count_of (b :: bytes'))
        /\ (cursor_room w < count_of (b :: bytes') ->
            D.write_loop fuel (D.consume w fd' chunk)
              (skipn (N.to_nat chunk) (b :: bytes'))
            = Some (D.ExhaustedExtents, w'))).
    { intros fd' Hfd'.
      destruct (IH (D.consume w fd' chunk)
                  (skipn (N.to_nat chunk) (b :: bytes')))
        as (w' & Hs & Hfit & Hover).
      - cbn [D.consume D.extents_ D.next_extent_index_]. lia.
      - exact Hfd'.
      - destruct (cursor_room_consume _ w e fd' chunk Hnth Hchunk) as [Hroom Hle].
        rewrite Hroom, (count_of_skipn _ _ Hlen) in Hfit, Hover.
        exists w'. split.
        + eapply same_session_trans; [|exact Hs].
          unfold same_session. cbn. auto.
        + split; intros Hc.
          * destruct Hfit as [-> ->]; [lia|]. split; [reflexivity|lia].
          * apply Hover. lia. }
    destruct (is_hole e).
    + apply Hstep. exact Hfd.
    + destruct (D.fd_ w) as [fd|] eqn:Hfdw; [|congruence].
      pose proof (reliable fd
        (start_block e * D.block_size_ w + D.extent_bytes_written_ w)
        (firstn (N.to_nat chunk) (b :: bytes'))) as Hok.
      destruct (pwrite fd _ _) as [ok fd']. cbn [fst] in Hok. subst ok.
      apply Hstep. discriminate.
Qed.

End DirectLoop.

(** On the recording target a successful run of the loop puts the bytes of
    the buffer where the layout of the extents has them. *)
Lemma write_loop_layout (fuel : nat) :
  forall (w w' : D.t TargetLog) (bytes more : list byte) (t : TargetLog),
    D.fd_ w = Some t ->
    D.write_loop fuel w bytes = Some (D.WriteDone, w') ->
    exists t',
      D.fd_ w' = Some t'
      /\ bytes_placed t' ++ cursor_layout w' more
         = bytes_placed t ++ cursor_layout w (bytes ++ more).
Proof.
  induction fuel as [|fuel IH]; intros w w' bytes more t Hfd Hrun;
    (destruct bytes as [|b bytes'];
     [inversion Hrun; subst; exists t; split; [assumption | reflexivity]|]);
    [discriminate|].
  cbn [D.write_loop] in Hrun.
  destruct (nth_error (D.extents_ w) (D.next_extent_index_ w)) as [e|] eqn:Hnth;
    [|discriminate].
  assert (Hcur : forall s,
    cursor_layout w s
    = layout_from (D.block_size_ w) (e :: skipn (S (D.next_extent_index_ w))
                                            (D.extents_ w))
                  (D.extent_bytes_written_ w) s).
  { intros s. unfold cursor_layout. rewrite (skipn_cursor _ _ _ _ Hnth). reflexivity. }
  set (rem := num_blocks e * D.block_size_ w - D.extent_bytes_written_ w) in *.
  destruct (rem =? 0) eqn:Hrem.
  - apply N.eqb_eq in Hrem.
    destruct (IH (D.advance w) w' (b :: bytes') more t Hfd Hrun)
      as (t' & Hfd' & Hplaced).
    exists t'. split; [assumption|]. rewrite Hplaced, Hcur.
    rewrite layout_from_full by exact Hrem. reflexivity.
  - apply N.eqb_neq in Hrem.
    set (chunk := N.min (count_of (b :: bytes')) rem) in *.
    assert (Hchunk : chunk <= rem) by (subst chunk; lia).
    assert (Hlen : chunk <= count_of (b :: bytes')) by (subst chunk; lia).
    pose proof (layout_from_chunk (D.block_size_ w) e
                  (skipn (S (D.next_extent_index_ w)) (D.extents_ w))
                  (D.extent_bytes_written_ w) chunk (b :: bytes') more Hchunk Hlen)
      as Hlay.
    assert (Hcons : forall fd s,
      cursor_layout (D.consume w fd chunk) s
      = layout_from (D.block_size_ w)
          (e :: skipn (S (D.next_extent_index_ w)) (D.extents_ w))
          (D.extent_bytes_written_ w + chunk) s).
    { intros fd s. unfold cursor_layout, D.consume. cbn [D.block_size_
        D.extents_ D.next_extent_index_ D.extent_bytes_written_].
      rewrite (skipn_cursor _ _ _ _ Hnth). reflexivity. }
    destruct (is_hole e).
    + destruct (IH (D.consume w (D.fd_ w) chunk) w'
                  (skipn (N.to_nat chunk) (b :: bytes')) more t Hfd Hrun)
        as (t' & Hfd' & Hplaced).
      exists t'. split; [assumption|].
      rewrite Hplaced, Hcons, Hcur, Hlay. reflexivity.
    + rewrite Hfd in Hrun. cbn [pwrite TargetLog_fd] in Hrun.
      match type of Hrun with
      | D.write_loop _ (D.consume _ (Some ?t1) _) _ = _ =>
        destruct (IH (D.consume w (Some t1) chunk) w'
                    (skipn (N.to_nat chunk) (b :: bytes')) more t1 eq_refl Hrun)
          as (t' & Hfd' & Hplaced)
      end.
      exists t'. split; [assumption|].
      rewrite Hplaced, Hcons, Hcur, Hlay.
      unfold bytes_placed. cbn [issued]. rewrite flat_map_app. cbn [flat_map fst snd].
      rewrite app_nil_r, <- app_assoc. reflexivity.
Qed.

(** ** Calls on a direct writer object *)

Section DirectCalls.
Context {FD : Type} `{FileDescriptor FD}.

Lemma direct_Write_run (w : ExtentWriter.t (D.t FD)) (bytes : list byte) :
  exists (s : D.write_status) (d : D.t FD),
    D.write_loop (D.iterations (ExtentWriter.derived w) bytes)
                 (ExtentWriter.derived w) bytes = Some (s, d)
    /\ D.Write_status (ExtentWriter.derived w) bytes = (s, d)
    /\ ExtentWriter.Write w bytes
       = Ret (D.succeeded s, ExtentWriter.mk (ExtentWriter.end_called_ w) d).
Proof.
  destruct (write_loop_total (D.iterations (ExtentWriter.derived w) bytes)
              (ExtentWriter.derived w) bytes) as [[s d] Hrun].
  { unfold D.iterations. lia. }
  exists s, d. split; [exact Hrun|].
  assert (Hst : D.Write_status (ExtentWriter.derived w) bytes = (s, d))
    by (unfold D.Write_status; rewrite Hrun; reflexivity).
  split; [exact Hst|].
  unfold ExtentWriter.Write. cbn [Write DirectExtentWriter_ops].
  unfold D.Write. rewrite Hst. reflexivity.
Qed.

Hypothesis reliable :
  forall (fd : FD) (off : N) (data : list byte),
    fst (pwrite fd off data) = true.

(** Buffers that fit into what is left of the extents are all written. *)
Lemma direct_write_all_fits (writes : list (list byte)) :
  forall w : ExtentWriter.t (D.t FD),
    D.fd_ (ExtentWriter.derived w) <> None ->
    count_of (concat writes) <= cursor_room (ExtentWriter.derived w) ->
    exists w',
      write_all w writes = Ret (repeat true (length writes), w')
      /\ same_session (ExtentWriter.derived w) (ExtentWriter.derived w')
      /\ cursor_room (ExtentWriter.derived w')
         = cursor_room (ExtentWriter.derived w) - count_of (concat writes).
Proof.
  unfold write_all.
  induction writes as [|b writes IH]; intros w Hfd Hfit.
  - exists w. cbn. split; [reflexivity|]. split; [apply same_session_refl|].
    unfold count_of. cbn. lia.
  - cbn [concat] in Hfit. rewrite count_of_app in Hfit.
    destruct (direct_Write_run w b) as (s & d & Hrun & _ & Hcall).
    destruct (write_loop_status reliable (D.iterations (ExtentWriter.derived w) b)
                (ExtentWriter.derived w) b) as (d' & Hs & Hdone & _);
      [unfold D.iterations; lia | exact Hfd |].
    destruct Hdone as [Hloop Hroom]; [lia|].
    rewrite Hloop in Hrun. inversion Hrun. subst s d. clear Hrun.
    destruct (IH (ExtentWriter.mk (ExtentWriter.end_called_ w) d'))
      as (w' & Hall & Hs' & Hroom').
    + cbn. destruct Hs as (_ & _ & Hf). auto.
    + cbn [ExtentWriter.derived]. rewrite Hroom. lia.
    + exists w'. cbn [map perform_all perform length repeat concat].
      rewrite Hcall. cbn [bind D.succeeded]. rewrite Hall. cbn [bind].
      split; [reflexivity|]. split.
      * eapply same_session_trans; [exact Hs | exact Hs'].
      * rewrite Hroom'. cbn [ExtentWriter.derived]. rewrite Hroom, count_of_app. lia.
Qed.

End DirectCalls.

(** Successful calls on the recording target put the bytes of their buffers,
    in the order of the calls, where the layout of the extents has them. *)
Lemma direct_write_all_layout (writes : list (list byte)) :
  forall (w w' : ExtentWriter.t (D.t TargetLog)) (more : list byte)
         (t : TargetLog),
    D.fd_ (ExtentWriter.derived w) = Some t ->
    write_all w writes = Ret (repeat true (length writes), w') ->
    bytes_placed t ++ cursor_layout (ExtentWriter.derived w) (concat writes ++ more)
    = placed_by w' ++ cursor_layout (ExtentWriter.derived w') more.
Proof.
  unfold write_all.
  induction writes as [|b writes IH]; intros w w' more t Hfd Hall.
  - cbn in Hall. inversion Hall. subst w'. unfold placed_by. rewrite Hfd.
    reflexivity.
  - cbn [map perform_all perform length repeat concat] in Hall.
    destruct (direct_Write_run w b) as (s & d & Hrun & _ & Hcall).
    rewrite Hcall in Hall. cbn [bind] in Hall.
    destruct (perform_all _ (map OpWrite writes)) as [[rs w2]|f] eqn:Hrest;
      cbn [bind] in Hall; [|discriminate].
    inversion Hall as [[Hs Hrs Hw]]. subst w2.
    destruct s; try discriminate.
    destruct (write_loop_layout _ _ _ _ (concat writes ++ more) _ Hfd Hrun)
      as (t' & Hfd' & Hplaced).
    cbn [concat]. rewrite <- app_assoc, <- Hplaced.
    rewrite Hrs in Hrest.
    apply (IH (ExtentWriter.mk (ExtentWriter.end_called_ w) d) w' more t');
      [exact Hfd' | exact Hrest].
Qed.

(** The object a session of the direct writer starts its writes with. *)
Lemma direct_session_start (FD : Type) (inst : FileDescriptor FD)
    (fd : option FD) (extents : list Extent) (block_size : N)
    (ops : list (operation FD)) :
  perform_all (ExtentWriter.ctor D.ctor) (OpInit fd extents block_size :: ops)
  = '(rs, w) <- perform_all
                  (ExtentWriter.mk false (D.mk fd block_size 0 extents 0)) ops ;;
    Ret (true :: rs, w).
Proof. reflexivity. Qed.

Lemma perform_all_prefixed (FD S : Type) (inst : ExtentWriterOps FD S)
    (w w' : ExtentWriter.t S) (ops : list (operation FD)) (rs : list bool) :
  perform_all w ops = Ret (rs, w') ->
  ('(rs, w) <- perform_all w ops ;; Ret (true :: rs, w)) = Ret (true :: rs, w').
Proof. intros ->. reflexivity. Qed.

(** ** The direct writer: initialisation, capacity, placement *)

(** C8: [DirectExtentWriter::Init] returns [true] for every writer state and
    every argument, recording the three arguments and nothing else; a null
    target, an empty extent list and a block size of zero are accepted, and
    so is every call of the virtual [Init] on a direct writer object. *)
Theorem direct_Init_never_fails :
  forall (FD : Type) (inst : FileDescriptor FD) (w : D.t FD)
         (fd : option FD) (extents : list Extent) (block_size : N),
    D.Init w fd extents block_size
    = Ret (true, D.mk fd block_size (D.extent_bytes_written_ w) extents
                      (D.next_extent_index_ w))
    /\ D.Init w None [] 0
       = Ret (true, D.mk None 0 (D.extent_bytes_written_ w) []
                         (D.next_extent_index_ w))
    /\ forall obj : ExtentWriter.t (D.t FD),
         exists obj',
           ExtentWriter.Init obj fd extents block_size = Ret (true, obj')
           /\ D.fd_ (ExtentWriter.derived obj') = fd
           /\ D.block_size_ (ExtentWriter.derived obj') = block_size
           /\ D.extents_ (ExtentWriter.derived obj') = extents.
Proof.
  intros FD inst w fd extents block_size.
  split; [reflexivity|]. split; [reflexivity|].
  intros obj. eexists. split; [reflexivity|]. cbn. auto.
Qed.

(** C3: on a target that accepts every positioned write, the [Write] calls
    of a session of the direct writer all return [true] as long as their
    buffers together hold no more than [block_size * sum(num_blocks)] bytes,
    that many included; and a further call whose buffer takes the total past
    that capacity returns [false], the loop having ended with the
    exhausted-extents condition. *)
Theorem direct_writer_capacity_limit :
  forall (FD : Type) (inst : FileDescriptor FD),
    (forall (fd : FD) (off : N) (data : list byte),
        fst (pwrite fd off data) = true) ->
    forall (t0 : FD) (block_size : N) (extents : list Extent)
           (writes : list (list byte)),
      count_of (concat writes) <= capacity block_size extents ->
      exists w',
        perform_all (ExtentWriter.ctor D.ctor)
          (OpInit (Some t0) extents block_size :: map OpWrite writes)
        = Ret (repeat true (S (length writes)), w')
        /\ forall last : list byte,
             capacity block_size extents
             < count_of (concat writes) + count_of last ->
             exists d,
               D.write_loop (D.iterations (ExtentWriter.derived w') last)
                            (ExtentWriter.derived w') last
               = Some (D.ExhaustedExtents, d)
               /\ D.Write_status (ExtentWriter.derived w') last
                  = (D.ExhaustedExtents, d)
               /\ ExtentWriter.Write w' last
                  = Ret (false, ExtentWriter.mk (ExtentWriter.end_called_ w') d).
Proof.
  intros FD inst reliable t0 block_size extents writes Hfit.
  set (w0 := ExtentWriter.mk false (D.mk (Some t0) block_size 0 extents 0)).
  assert (Hroom0 : cursor_room (ExtentWriter.derived w0)
                   = capacity block_size extents).
  { unfold cursor_room. cbn. apply room_start. }
  destruct (direct_write_all_fits reliable writes w0)
    as (w' & Hall & Hs & Hroom).
  { cbn. discriminate. }
  { rewrite Hroom0. exact Hfit. }
  exists w'. split.
  - rewrite direct_session_start. cbn [repeat].
    apply perform_all_prefixed. exact Hall.
  - intros last Hover.
    destruct (direct_Write_run w' last) as (s & d & Hrun & Hst & Hcall).
    destruct (write_loop_status reliable
                (D.iterations (ExtentWriter.derived w') last)
                (ExtentWriter.derived w') last) as (d' & _ & _ & Hex).
    { unfold D.iterations. lia. }
    { destruct Hs as (_ & _ & Hf). apply Hf. cbn. discriminate. }
    assert (Hloop : D.write_loop (D.iterations (ExtentWriter.derived w') last)
                      (ExtentWriter.derived w') last
                    = Some (D.ExhaustedExtents, d'))
      by (apply Hex; rewrite Hroom, Hroom0; lia).
    rewrite Hloop in Hrun. inversion Hrun. subst s d. exists d'.
    split; [exact Hloop | split; [exact Hst | exact Hcall]].
Qed.

Lemma direct_writer_capacity_limit_witness :
  exists w',
    perform_all (ExtentWriter.ctor D.ctor)
      (OpInit (Some (mkTargetLog [])) [mkExtent 5 2; mkExtent 10 1] 2
         :: map OpWrite [[x01; x02; x03]; [x04; x05; x06]])
    = Ret (repeat true 3, w')
    /\ forall last : list byte,
         capacity 2 [mkExtent 5 2; mkExtent 10 1]
         < count_of (concat [[x01; x02; x03]; [x04; x05; x06]]) + count_of last ->
         exists d,
           D.write_loop (D.iterations (ExtentWriter.derived w') last)
                        (ExtentWriter.derived w') last
           = Some (D.ExhaustedExtents, d)
           /\ D.Write_status (ExtentWriter.derived w') last
              = (D.ExhaustedExtents, d)
           /\ ExtentWriter.Write w' last
              = Ret (false, ExtentWriter.mk (ExtentWriter.end_called_ w') d).
Proof.
  apply (direct_writer_capacity_limit TargetLog TargetLog_fd).
  - intros fd off data. reflexivity.
  - vm_compute. discriminate.
Defined.

Lemma TargetLog_reliable (fd : TargetLog) (off : N) (data : list byte) :
  fst (pwrite fd off data) = true.
Proof. reflexivity. Qed.

(** A session of the direct writer on the recording target, whose buffers
    fit into the extents: every call succeeds and the bytes end up where the
    layout of the extents has them. *)
Lemma direct_session_layout (block_size : N) (extents : list Extent)
    (writes : list (list byte)) (t0 : TargetLog) :
  count_of (concat writes) <= capacity block_size extents ->
  exists w',
    perform_all (ExtentWriter.ctor D.ctor)
      (OpInit (Some t0) extents block_size :: map OpWrite writes)
    = Ret (repeat true (S (length writes)), w')
    /\ placed_by w'
       = bytes_placed t0 ++ layout block_size extents (concat writes).
Proof.
  intros Hfit.
  set (w0 := ExtentWriter.mk false (D.mk (Some t0) block_size 0 extents 0)).
  destruct (direct_write_all_fits TargetLog_reliable writes w0)
    as (w' & Hall & _ & _).
  { cbn. discriminate. }
  { unfold cursor_room. cbn. rewrite room_start. exact Hfit. }
  exists w'. split.
  - rewrite direct_session_start. cbn [repeat].
    apply perform_all_prefixed. exact Hall.
  - pose proof (direct_write_all_layout writes w0 w' [] t0 eq_refl Hall) as Hlay.
    unfold cursor_layout at 2 in Hlay. rewrite layout_from_nil in Hlay.
    rewrite !app_nil_r in Hlay. symmetry. exact Hlay.
Qed.

(** The layout of the two extents [(5, 2)] and [(10, 1)] with blocks of
    4096 bytes. *)
Lemma layout_5_2_10_1 (stream : list byte) :
  layout 4096 [mkExtent 5 2; mkExtent 10 1] stream
  = addr_bytes (5 * 4096) (firstn (N.to_nat 8192) stream)
    ++ addr_bytes (10 * 4096)
         (firstn (N.to_nat 4096) (skipn (N.to_nat 8192) stream)).
Proof.
  unfold layout. cbn [layout_from start_block num_blocks].
  replace (is_hole (mkExtent 5 2)) with false by reflexivity.
  replace (is_hole (mkExtent 10 1)) with false by reflexivity.
  replace (2 * 4096 - 0) with 8192 by reflexivity.
  replace (1 * 4096 - 0) with 4096 by reflexivity.
  replace (5 * 4096 + 0) with (5 * 4096) by reflexivity.
  replace (10 * 4096 + 0) with (10 * 4096) by reflexivity.
  rewrite app_nil_r. reflexivity.
Qed.

(** C1: in a session of the direct writer on a recording target, whatever
    the buffers of the [Write] calls are, if together they fit into the
    extents then every call succeeds and the target has been given each byte
    of their concatenation once, in order, at the offset the walk of the
    extents gives it ([start_block * block_size] plus the bytes already in
    that extent; nothing for a hole).  With the extents [(5, 2)], [(10, 1)]
    and blocks of 4096 bytes, bytes 0..8191 of a stream of 12288 bytes are
    placed at [5*4096 + i] and bytes 8192..12287 at [10*4096 + (i - 8192)],
    12288 placements in all. *)
Theorem direct_writer_placement :
  (forall (block_size : N) (extents : list Extent)
          (writes : list (list byte)) (t0 : TargetLog),
      count_of (concat writes) <= capacity block_size extents ->
      exists w',
        perform_all (ExtentWriter.ctor D.ctor)
          (OpInit (Some t0) extents block_size :: map OpWrite writes)
        = Ret (repeat true (S (length writes)), w')
        /\ placed_by w'
           = bytes_placed t0 ++ layout block_size extents (concat writes))
  /\ (forall writes : list (list byte),
      count_of (concat writes) = 12288 ->
      exists w',
        perform_all (ExtentWriter.ctor D.ctor)
          (OpInit (Some (mkTargetLog [])) [mkExtent 5 2; mkExtent 10 1] 4096
             :: map OpWrite writes)
        = Ret (repeat true (S (length writes)), w')
        /\ count_of (map snd (placed_by w')) = 12288
        /\ forall (i : nat) (b : byte),
             nth_error (concat writes) i = Some b ->
             nth_error (placed_by w') i
             = Some (if N.of_nat i <? 8192 then 5 * 4096 + N.of_nat i
                     else 10 * 4096 + (N.of_nat i - 8192), b)).
Proof.
  split; [exact direct_session_layout|].
  intros writes Hlen.
  destruct (direct_session_layout 4096 [mkExtent 5 2; mkExtent 10 1] writes
              (mkTargetLog [])) as (w' & Hrun & Hplaced).
  { rewrite Hlen. vm_compute. discriminate. }
  exists w'. split; [exact Hrun|].
  rewrite Hplaced, layout_5_2_10_1. cbn [bytes_placed issued flat_map app].
  set (stream := concat writes) in *. unfold count_of in Hlen.
  assert (Hlow : length (firstn (N.to_nat 8192) stream) = N.to_nat 8192)
    by (apply firstn_length_le; lia).
  assert (Hhigh : length (firstn (N.to_nat 4096) (skipn (N.to_nat 8192) stream))
                  = N.to_nat 4096)
    by (apply firstn_length_le; rewrite length_skipn; lia).
  split.
  - unfold count_of.
    rewrite length_map, length_app, !length_addr_bytes, Hlow, Hhigh. lia.
  - intros i b Hb.
    assert (Hi : (i < length stream)%nat)
      by (apply nth_error_Some; congruence).
    destruct (N.ltb_spec (N.of_nat i) 8192) as [Hlt|Hge].
    + rewrite nth_error_app1 by (rewrite length_addr_bytes, Hlow; lia).
      apply nth_error_addr_bytes.
      rewrite nth_error_firstn.
      destruct (Nat.ltb_spec i (N.to_nat 8192)); [exact Hb | lia].
    + rewrite nth_error_app2 by (rewrite length_addr_bytes, Hlow; lia).
      rewrite length_addr_bytes, Hlow.
      rewrite (nth_error_addr_bytes _ (10 * 4096) (i - N.to_nat 8192) b).
      * do 2 f_equal. lia.
      * rewrite nth_error_firstn.
        destruct (Nat.ltb_spec (i - N.to_nat 8192) (N.to_nat 4096)); [|lia].
        rewrite nth_error_skipn. rewrite <- Hb. f_equal. lia.
Qed.

Lemma direct_writer_placement_witness :
  exists w',
    perform_all (ExtentWriter.ctor D.ctor)
      (OpInit (Some (mkTargetLog [])) [mkExtent 5 2; mkExtent 10 1] 2
         :: map OpWrite [[x01; x02; x03]; [x04; x05; x06]])
    = Ret (repeat true 3, w')
    /\ placed_by w'
       = [(10, x01); (11, x02); (12, x03); (13, x04); (20, x05); (21, x06)].
Proof.
  destruct (proj1 direct_writer_placement 2 [mkExtent 5 2; mkExtent 10 1]
              [[x01; x02; x03]; [x04; x05; x06]] (mkTargetLog []))
    as (w' & Hrun & Hplaced).
  - vm_compute. discriminate.
  - exists w'. split; [exact Hrun|]. rewrite Hplaced. reflexivity.
Defined.

(** ** The base class: the flag that [End] sets *)

Section BaseFlag.
Context {FD S : Type} `{ExtentWriterOps FD S}.

Lemma End_sets_flag (w w' : ExtentWriter.t S) (r : bool) :
  ExtentWriter.End w = Ret (r, w') ->
  ExtentWriter.end_called_ w' = true
  /\ EndImpl (ExtentWriter.derived w) = Ret (r, ExtentWriter.derived w').
Proof.
  unfold ExtentWriter.End. cbn [ExtentWriter.derived ExtentWriter.end_called_].
  destruct (EndImpl (ExtentWriter.derived w)) as [[r1 s]|f]; cbn [bind];
    intros Hend; inversion Hend; subst. cbn. auto.
Qed.

Lemma perform_flag (w w' : ExtentWriter.t S) (o : operation FD) (r : bool) :
  perform w o = Ret (r, w') ->
  ExtentWriter.end_called_ w' = ExtentWriter.end_called_ w || is_OpEnd o.
Proof.
  destruct o as [fd extents block_size|bytes|]; cbn [perform is_OpEnd].
  - unfold ExtentWriter.Init.
    destruct (Init (ExtentWriter.derived w) fd extents block_size)
      as [[r1 s]|f]; cbn [bind]; intros Hr; inversion Hr; subst.
    cbn. rewrite orb_false_r. reflexivity.
  - unfold ExtentWriter.Write.
    destruct (Write (ExtentWriter.derived w) bytes)
      as [[r1 s]|f]; cbn [bind]; intros Hr; inversion Hr; subst.
    cbn. rewrite orb_false_r. reflexivity.
  - intros Hr. apply End_sets_flag in Hr. destruct Hr as [-> _].
    rewrite orb_true_r. reflexivity.
Qed.

Lemma perform_all_flag (ops : list (operation FD)) :
  forall (w w' : ExtentWriter.t S) (rs : list bool),
    perform_all w ops = Ret (rs, w') ->
    ExtentWriter.end_called_ w'
    = ExtentWriter.end_called_ w || existsb is_OpEnd ops.
Proof.
  induction ops as [|o ops IH]; intros w w' rs Hrun; cbn in Hrun.
  - inversion Hrun. subst. cbn. rewrite orb_false_r. reflexivity.
  - destruct (perform w o) as [[r w1]|f] eqn:Hstep; cbn [bind] in Hrun;
      [|discriminate].
    destruct (perform_all w1 ops) as [[rs1 w2]|f] eqn:Hrest; cbn [bind] in Hrun;
      [|discriminate].
    inversion Hrun. subst.
    rewrite (IH _ _ _ Hrest), (perform_flag _ _ _ _ Hstep).
    cbn [existsb]. rewrite orb_assoc. reflexivity.
Qed.

Lemma write_all_flag (writes : list (list byte)) (w w' : ExtentWriter.t S)
    (rs : list bool) :
  write_all w writes = Ret (rs, w') ->
  ExtentWriter.end_called_ w' = ExtentWriter.end_called_ w.
Proof.
  unfold write_all. intros Hrun. rewrite (perform_all_flag _ _ _ _ Hrun).
  replace (existsb is_OpEnd (map OpWrite writes)) with false.
  - apply orb_false_r.
  - clear Hrun. induction writes as [|b writes IH]; cbn; auto.
Qed.

Lemma write_all_cons (w : ExtentWriter.t S) (b : list byte)
    (writes : list (list byte)) :
  write_all w (b :: writes)
  = '(r, w1) <- ExtentWriter.Write w b ;;
    '(rs, w2) <- write_all w1 writes ;;
    Ret (r :: rs, w2).
Proof. reflexivity. Qed.

Lemma session_inv (w : ExtentWriter.t S) (fd : option FD)
    (extents : list Extent) (block_size : N) (writes : list (list byte))
    (o : outcome) :
  session w fd extents block_size writes = Ret o ->
  exists w0 w1,
    ExtentWriter.Init w fd extents block_size = Ret (init_result o, w0)
    /\ write_all w0 writes = Ret (write_results o, w1)
    /\ ExtentWriter.End w1 = Ret (end_result o, final o).
Proof.
  unfold session.
  destruct (ExtentWriter.Init w fd extents block_size) as [[r0 w0]|f] eqn:H0;
    cbn [bind]; [|discriminate].
  destruct (write_all w0 writes) as [[rs w1]|f] eqn:H1; cbn [bind];
    [|discriminate].
  destruct (ExtentWriter.End w1) as [[re w2]|f] eqn:H2; cbn [bind];
    [|discriminate].
  intros Ho. inversion Ho. subst o. cbn. exists w0, w1. auto.
Qed.

End BaseFlag.

(** C7: [End] sets [end_called_] and then returns what the class's own
    [EndImpl] returns; over any sequence of operations on an object of any
    class the flag is set exactly by the [End] calls in it; and the
    destructor of an object writes its line to the error log exactly when the
    flag is unset, so an object built by the constructor does so if and only
    if [End] was not among the operations performed on it. *)
Theorem end_called_recorded :
  forall (FD S : Type) (inst : ExtentWriterOps FD S),
    (forall (w w' : ExtentWriter.t S) (r : bool),
        ExtentWriter.End w = Ret (r, w') ->
        ExtentWriter.end_called_ w' = true
        /\ EndImpl (ExtentWriter.derived w) = Ret (r, ExtentWriter.derived w'))
    /\ (forall (ops : list (operation FD)) (w w' : ExtentWriter.t S)
               (rs : list bool),
        perform_all w ops = Ret (rs, w') ->
        ExtentWriter.end_called_ w'
        = ExtentWriter.end_called_ w || existsb is_OpEnd ops)
    /\ (forall w : ExtentWriter.t S,
        (ExtentWriter.dtor w = ["End() not called on ExtentWriter."%string]
         <-> ExtentWriter.end_called_ w = false)
        /\ (ExtentWriter.dtor w = [] <-> ExtentWriter.end_called_ w = true))
    /\ (forall (s : S) (ops : list (operation FD)) (w' : ExtentWriter.t S)
               (rs : list bool),
        perform_all (ExtentWriter.ctor s) ops = Ret (rs, w') ->
        (ExtentWriter.dtor w' = ["End() not called on ExtentWriter."%string]
         <-> existsb is_OpEnd ops = false)).
Proof.
  intros FD S inst.
  assert (Hdtor : forall w : ExtentWriter.t S,
    (ExtentWriter.dtor w = ["End() not called on ExtentWriter."%string]
     <-> ExtentWriter.end_called_ w = false)
    /\ (ExtentWriter.dtor w = [] <-> ExtentWriter.end_called_ w = true)).
  { intros w. unfold ExtentWriter.dtor.
    destruct (ExtentWriter.end_called_ w); cbn [negb];
      repeat split; intros; try reflexivity; discriminate. }
  split; [exact End_sets_flag|].
  split; [exact perform_all_flag|].
  split; [exact Hdtor|].
  intros s ops w' rs Hrun.
  rewrite (proj1 (Hdtor w')), (perform_all_flag _ _ _ _ Hrun).
  reflexivity.
Qed.

Lemma end_called_recorded_witness :
  ExtentWriter.dtor
    (ExtentWriter.mk false
       (D.mk (Some (mkTargetLog [(0, [x01])])) 1 1 [mkExtent 0 1] 0))
  = ["End() not called on ExtentWriter."%string]
  <-> existsb is_OpEnd [OpInit (Some (mkTargetLog [])) [mkExtent 0 1] 1;
                        OpWrite [x01]] = false.
Proof.
  apply (proj2 (proj2 (proj2
           (end_called_recorded TargetLog (D.t TargetLog) _)))
           D.ctor _ _ [true; true]).
  reflexivity.
Defined.

(** ** Calls on a zero-pad decorator object *)

Lemma size_add_small (a b : N) : a + b < SIZE_MODULUS -> size_add a b = a + b.
Proof. intros Hs. unfold size_add. apply N.mod_small. exact Hs. Qed.

Lemma size_sub_small (a b : N) :
  b <= a -> a < SIZE_MODULUS -> size_sub a b = a - b.
Proof.
  intros Hb Ha. unfold size_sub.
  replace (a + SIZE_MODULUS - b) with (a - b + 1 * SIZE_MODULUS) by lia.
  rewrite N.Div0.mod_add. apply N.mod_small. lia.
Qed.

Lemma uint32_below_size : UINT32_MODULUS + OBJECT_MAX < SIZE_MODULUS.
Proof. reflexivity. Qed.

Lemma uint32_below_object_max : UINT32_MODULUS <= OBJECT_MAX.
Proof. vm_compute. discriminate. Qed.

(** The padding of a block that a [uint32_t] holds is short enough for the
    buffer of zeros to be built. *)
Lemma padding_fits (block_size c : N) :
  is_uint32 block_size -> (OBJECT_MAX <? block_size - c) = false.
Proof.
  unfold is_uint32. intros Hbs. apply N.ltb_ge.
  pose proof uint32_below_object_max. lia.
Qed.

Lemma count_of_zeros (n : N) : count_of (ZP.zeros n) = n.
Proof. unfold count_of, ZP.zeros. rewrite repeat_length. lia. Qed.

Section ZeroPadCalls.
Context {FD U : Type} `{ExtentWriterOps FD U}.

(** A call of [Write] on a decorator object, by the outcome of the call it
    forwards. *)
Lemma zp_Write_cases (w : ExtentWriter.t (ZP.t U)) (bytes : list byte) :
  ExtentWriter.Write w bytes
  = match ExtentWriter.Write (wrapped w) bytes with
    | Ret (true, u) =>
      if zp_block_size w =? 0 then Fault ModuloByZero
      else Ret (true,
                ExtentWriter.mk (ExtentWriter.end_called_ w)
                  (ZP.mk u (zp_block_size w)
                     (size_add (zp_counter w) (count_of bytes)
                      mod zp_block_size w)))
    | Ret (false, u) =>
      Ret (false,
           ExtentWriter.mk (ExtentWriter.end_called_ w)
             (ZP.mk u (zp_block_size w) (zp_counter w)))
    | Fault f => Fault f
    end.
Proof.
  unfold ExtentWriter.Write at 1. cbn [Write ZeroPadExtentWriter_ops].
  unfold ZP.Write, wrapped, zp_block_size, zp_counter.
  destruct (ExtentWriter.Write _ bytes) as [[[|] u]|f]; cbn [bind];
    [|reflexivity|reflexivity].
  destruct (ZP.block_size_ (ExtentWriter.derived w) =? 0); reflexivity.
Qed.

(** A call of [End] on a decorator object, by the outcomes of the calls it
    makes on the wrapped writer. *)
Lemma zp_End_cases (w : ExtentWriter.t (ZP.t U)) :
  ExtentWriter.End w
  = if zp_counter w =? 0 then
      '(r, u) <- ExtentWriter.End (wrapped w) ;;
      Ret (r, ExtentWriter.mk true (ZP.mk u (zp_block_size w) (zp_counter w)))
    else if OBJECT_MAX <? size_sub (zp_block_size w) (zp_counter w) then
      Fault LengthError
    else
      '(ok, u) <- ExtentWriter.Write (wrapped w)
                    (ZP.zeros (size_sub (zp_block_size w) (zp_counter w))) ;;
      if ok then
        '(r, u') <- ExtentWriter.End u ;;
        Ret (r, ExtentWriter.mk true
                  (ZP.mk u' (zp_block_size w) (zp_counter w)))
      else
        Ret (false, ExtentWriter.mk true
                      (ZP.mk u (zp_block_size w) (zp_counter w))).
Proof.
  unfold ExtentWriter.End at 1. cbn [EndImpl ZeroPadExtentWriter_ops
    ExtentWriter.derived ExtentWriter.end_called_].
  unfold ZP.EndImpl, ZP.delegate_End, wrapped, zp_block_size, zp_counter.
  destruct (ZP.bytes_written_mod_block_size_ (ExtentWriter.derived w) =? 0);
    cbn [negb].
  - destruct (ExtentWriter.End _) as [[r u]|f]; reflexivity.
  - destruct (OBJECT_MAX <? _); [reflexivity|].
    destruct (ExtentWriter.Write _ _) as [[[|] u]|f]; cbn [bind];
      try reflexivity.
    cbn [ZP.underlying_extent_writer_ ZP.block_size_
         ZP.bytes_written_mod_block_size_].
    destruct (ExtentWriter.End u) as [[r u']|f]; reflexivity.
Qed.

(** A call of [Init] on a decorator object. *)
Lemma zp_Init_cases (w : ExtentWriter.t (ZP.t U)) (fd : option FD)
    (extents : list Extent) (block_size : N) :
  ExtentWriter.Init w fd extents block_size
  = '(r, u) <- ExtentWriter.Init (wrapped w) fd extents block_size ;;
    Ret (r, ExtentWriter.mk (ExtentWriter.end_called_ w)
              (ZP.mk u block_size (zp_counter w))).
Proof.
  unfold ExtentWriter.Init at 1. cbn [Init ZeroPadExtentWriter_ops].
  unfold ZP.Init, wrapped, zp_counter.
  destruct (ExtentWriter.Init _ fd extents block_size) as [[r u]|f];
    reflexivity.
Qed.

(** What one call of [Write] does to a decorator whose counter is aligned,
    when the buffer is no longer than an object can be. *)
Lemma zp_Write_step (w w' : ExtentWriter.t (ZP.t U)) (bytes : list byte)
    (r : bool) :
  ExtentWriter.Write w bytes = Ret (r, w') ->
  is_uint32 (zp_block_size w) ->
  aligned_counter (zp_block_size w) (zp_counter w) ->
  count_of bytes <= OBJECT_MAX ->
  ExtentWriter.Write (wrapped w) bytes = Ret (r, wrapped w')
  /\ zp_block_size w' = zp_block_size w
  /\ ExtentWriter.end_called_ w' = ExtentWriter.end_called_ w
  /\ aligned_counter (zp_block_size w) (zp_counter w')
  /\ (r = true -> zp_block_size w <> 0)
  /\ zp_counter w'
     = if r then (zp_counter w + count_of bytes) mod zp_block_size w
       else zp_counter w.
Proof.
  rewrite zp_Write_cases. intros Hrun Hbs Hal Hfit.
  destruct (ExtentWriter.Write (wrapped w) bytes) as [[[|] u]|f];
    [|inversion Hrun; subst; cbn; repeat split; auto; discriminate
     |discriminate].
  destruct (zp_block_size w =? 0) eqn:Hz; [discriminate|].
  apply N.eqb_neq in Hz. inversion Hrun. subst. cbn.
  pose proof uint32_below_size as Hbig. unfold is_uint32 in Hbs.
  assert (Hsum : zp_counter w + count_of bytes < SIZE_MODULUS)
    by (destruct Hal; lia).
  rewrite (size_add_small _ _ Hsum).
  repeat split; auto.
  right. apply N.mod_lt. exact Hz.
Qed.

(** The [Write] calls of a session leave the counter at the number of bytes
    written modulo the block size, and the wrapped writer where the same
    calls made on it directly leave it, with the same results. *)
Lemma zp_write_all (writes : list (list byte)) :
  forall (w w' : ExtentWriter.t (ZP.t U)) (rs : list bool),
    write_all w writes = Ret (rs, w') ->
    is_uint32 (zp_block_size w) ->
    aligned_counter (zp_block_size w) (zp_counter w) ->
    buffers_fit writes ->
    write_all (wrapped w) writes = Ret (rs, wrapped w')
    /\ zp_block_size w' = zp_block_size w
    /\ ExtentWriter.end_called_ w' = ExtentWriter.end_called_ w
    /\ aligned_counter (zp_block_size w) (zp_counter w')
    /\ zp_counter w'
       = (zp_counter w + bytes_written writes rs) mod zp_block_size w.
Proof.
  induction writes as [|b writes IH]; intros w w' rs Hrun Hbs Hal Hfit.
  - inversion Hrun. subst. cbn [bytes_written]. repeat split; auto.
    rewrite N.add_0_r. destruct Hal as [->|Hlt].
    + symmetry. apply N.Div0.mod_0_l.
    + symmetry. apply N.mod_small. exact Hlt.
  - rewrite write_all_cons in Hrun.
    destruct (ExtentWriter.Write w b) as [[r w1]|f] eqn:Hstep;
      cbn [bind] in Hrun; [|discriminate].
    destruct (write_all w1 writes) as [[rs1 w2]|f] eqn:Hrest;
      cbn [bind] in Hrun; [|discriminate].
    inversion Hrun. subst. inversion Hfit as [|? ? Hb Hfit']. subst.
    destruct (zp_Write_step _ _ _ _ Hstep Hbs Hal Hb)
      as (Hfwd & Hbs1 & Hflag1 & Hal1 & Hnz & Hc1).
    rewrite <- Hbs1 in Hbs, Hal1.
    destruct (IH _ _ _ Hrest Hbs Hal1 Hfit')
      as (Hfwd' & Hbs2 & Hflag2 & Hal2 & Hc2).
    rewrite Hbs1 in *.
    rewrite write_all_cons, Hfwd. cbn [bind]. rewrite Hfwd'. cbn [bind].
    repeat split; try congruence.
    rewrite Hc2, Hc1. cbn [bytes_written]. destruct r.
    + rewrite N.Div0.add_mod_idemp_l. f_equal; lia.
    + f_equal; lia.
Qed.

End ZeroPadCalls.

(** ** What [Init] and [End] keep of a decorator *)

Section ZeroPadKeeps.
Context {FD U : Type} `{ExtentWriterOps FD U}.

Lemma zp_Init_keeps (w w' : ExtentWriter.t (ZP.t U)) (fd : option FD)
    (extents : list Extent) (block_size : N) (r : bool) :
  ExtentWriter.Init w fd extents block_size = Ret (r, w') ->
  zp_block_size w' = block_size
  /\ zp_counter w' = zp_counter w
  /\ ExtentWriter.Init (wrapped w) fd extents block_size = Ret (r, wrapped w').
Proof.
  rewrite zp_Init_cases.
  destruct (ExtentWriter.Init (wrapped w) fd extents block_size)
    as [[r1 u]|f]; cbn [bind]; intros Hr; [|discriminate].
  injection Hr as <- <-. repeat split; reflexivity.
Qed.

Lemma zp_End_keeps (w w' : ExtentWriter.t (ZP.t U)) (r : bool) :
  ExtentWriter.End w = Ret (r, w') ->
  zp_block_size w' = zp_block_size w
  /\ zp_counter w' = zp_counter w
  /\ ExtentWriter.end_called_ w' = true.
Proof.
  rewrite zp_End_cases.
  destruct (zp_counter w =? 0).
  - destruct (ExtentWriter.End (wrapped w)) as [[r1 u]|f]; cbn [bind];
      intros Hr; [|discriminate].
    injection Hr as _ <-. repeat split; reflexivity.
  - destruct (OBJECT_MAX <? _); [discriminate|].
    destruct (ExtentWriter.Write (wrapped w) _) as [[[|] u]|f]; cbn [bind];
      [|intros Hr; injection Hr as _ <-; repeat split; reflexivity
       |discriminate].
    destruct (ExtentWriter.End u) as [[r1 u']|f]; cbn [bind];
      intros Hr; [|discriminate].
    injection Hr as _ <-. repeat split; reflexivity.
Qed.

End ZeroPadKeeps.

(** ** Calls on a recording writer object *)

Section RecordingCalls.
Context {FD U : Type} `{ExtentWriterOps FD U}.

Lemma rec_Init_calls (u u' : ExtentWriter.t (Rec.t FD U)) (fd : option FD)
    (extents : list Extent) (block_size : N) (r : bool) :
  ExtentWriter.Init u fd extents block_size = Ret (r, u') ->
  calls_of u' = calls_of u ++ [CallInit fd extents block_size r]
  /\ ExtentWriter.end_called_ u' = ExtentWriter.end_called_ u.
Proof.
  unfold ExtentWriter.Init. cbn [Init RecordingExtentWriter_ops].
  unfold Rec.Init.
  destruct (Init (Rec.inner (ExtentWriter.derived u)) fd extents block_size)
    as [[r1 i]|f]; cbn [bind]; intros Hr; inversion Hr; subst.
  split; reflexivity.
Qed.

Lemma rec_Write_calls (u u' : ExtentWriter.t (Rec.t FD U))
    (bytes : list byte) (r : bool) :
  ExtentWriter.Write u bytes = Ret (r, u') ->
  calls_of u' = calls_of u ++ [CallWrite bytes (count_of bytes) r]
  /\ ExtentWriter.end_called_ u' = ExtentWriter.end_called_ u.
Proof.
  unfold ExtentWriter.Write. cbn [Write RecordingExtentWriter_ops].
  unfold Rec.Write.
  destruct (Write (Rec.inner (ExtentWriter.derived u)) bytes)
    as [[r1 i]|f]; cbn [bind]; intros Hr; inversion Hr; subst.
  split; reflexivity.
Qed.

Lemma rec_End_calls (u u' : ExtentWriter.t (Rec.t FD U)) (r : bool) :
  ExtentWriter.End u = Ret (r, u') ->
  calls_of u' = calls_of u ++ [CallEndImpl r]
  /\ ExtentWriter.end_called_ u' = true.
Proof.
  unfold ExtentWriter.End. cbn [EndImpl RecordingExtentWriter_ops
    ExtentWriter.derived ExtentWriter.end_called_].
  unfold Rec.EndImpl.
  destruct (EndImpl (Rec.inner (ExtentWriter.derived u)))
    as [[r1 i]|f]; cbn [bind]; intros Hr; inversion Hr; subst.
  split; reflexivity.
Qed.

Lemma rec_write_all_calls (writes : list (list byte)) :
  forall (u u' : ExtentWriter.t (Rec.t FD U)) (rs : list bool),
    write_all u writes = Ret (rs, u') ->
    calls_of u' = calls_of u ++ forwarded writes rs.
Proof.
  induction writes as [|b writes IH]; intros u u' rs Hrun.
  - inversion Hrun. subst. cbn. rewrite app_nil_r. reflexivity.
  - rewrite write_all_cons in Hrun.
    destruct (ExtentWriter.Write u b) as [[r u1]|f] eqn:Hstep;
      cbn [bind] in Hrun; [|discriminate].
    destruct (write_all u1 writes) as [[rs1 u2]|f] eqn:Hrest;
      cbn [bind] in Hrun; [|discriminate].
    inversion Hrun. subst.
    rewrite (IH _ _ _ Hrest). destruct (rec_Write_calls _ _ _ _ Hstep) as [-> _].
    cbn [forwarded]. rewrite <- app_assoc. reflexivity.
Qed.

(** The calls that reach the wrapped writer in a session of a decorator:
    [Init], the buffers of the caller as they are, then either [End] alone,
    when the bytes written are a whole number of blocks, or one write of the
    zero bytes that are missing to the next block, followed by [End] when
    that write succeeded. *)
Lemma zero_pad_session_calls (u : U) (fd : option FD) (extents : list Extent)
    (block_size : N) (writes : list (list byte))
    (o : outcome (S := ZP.t (Rec.t FD U))) :
  session (ExtentWriter.ctor (ZP.ctor (ExtentWriter.ctor (Rec.ctor u))))
          fd extents block_size writes = Ret o ->
  is_uint32 block_size ->
  buffers_fit writes ->
  (bytes_written writes (write_results o) mod block_size = 0 ->
   calls_of (wrapped (final o))
   = CallInit fd extents block_size (init_result o)
       :: forwarded writes (write_results o)
       ++ [CallEndImpl (end_result o)]
   /\ ExtentWriter.end_called_ (wrapped (final o)) = true)
  /\ (bytes_written writes (write_results o) mod block_size <> 0 ->
      exists pad_ok : bool,
        calls_of (wrapped (final o))
        = CallInit fd extents block_size (init_result o)
            :: forwarded writes (write_results o)
            ++ CallWrite
                 (ZP.zeros (block_size
                            - bytes_written writes (write_results o)
                              mod block_size))
                 (block_size
                  - bytes_written writes (write_results o) mod block_size)
                 pad_ok
               :: (if pad_ok then [CallEndImpl (end_result o)] else [])
        /\ (pad_ok = false -> end_result o = false)
        /\ ExtentWriter.end_called_ (wrapped (final o)) = pad_ok).
Proof.
  intros Hrun Hbs Hfit.
  destruct (session_inv _ _ _ _ _ _ Hrun) as (w0 & w1 & Hinit & Hwrites & Hend).
  rewrite zp_Init_cases in Hinit.
  destruct (ExtentWriter.Init _ fd extents block_size) as [[r0 u0]|f] eqn:Hinit0;
    cbn [bind] in Hinit; [|discriminate].
  inversion Hinit as [[Hr0 Hw0]]. clear Hinit.
  destruct (rec_Init_calls _ _ _ _ _ _ Hinit0) as [Hcalls0 Hflag0].
  cbn in Hcalls0, Hflag0.
  destruct (zp_write_all writes w0 w1 (write_results o) Hwrites)
    as (Hfwd & Hbs1 & _ & Hal1 & Hc1);
    [subst w0; exact Hbs | subst w0; left; reflexivity | exact Hfit |].
  pose proof (rec_write_all_calls _ _ _ _ Hfwd) as Hcalls1.
  pose proof (write_all_flag _ _ _ _ Hfwd) as Hflag1.
  assert (Hbsw : zp_block_size w1 = block_size) by (subst w0; exact Hbs1).
  assert (Hcw : zp_counter w1
                = bytes_written writes (write_results o) mod block_size)
    by (subst w0; exact Hc1).
  assert (Halw : aligned_counter block_size (zp_counter w1))
    by (subst w0; exact Hal1).
  assert (Hcallsw : calls_of (wrapped w1)
                    = CallInit fd extents block_size (init_result o)
                        :: forwarded writes (write_results o))
    by (rewrite Hcalls1; subst w0; cbn [wrapped ExtentWriter.derived
          ZP.underlying_extent_writer_]; rewrite Hcalls0, <- Hr0; reflexivity).
  assert (Hflagw : ExtentWriter.end_called_ (wrapped w1) = false)
    by (rewrite Hflag1; subst w0; exact Hflag0).
  clear Hcalls0 Hflag0 Hcalls1 Hflag1 Hfwd Hbs1 Hc1 Hal1 Hw0 Hwrites Hr0 Hinit0.
  rewrite zp_End_cases, Hbsw, Hcw in Hend. rewrite Hcw in Halw.
  set (c := bytes_written writes (write_results o) mod block_size) in *.
  split; intros Hc.
  - rewrite Hc in Hend. cbn [N.eqb] in Hend.
    destruct (ExtentWriter.End (wrapped w1)) as [[re u2]|f] eqn:Hend0;
      cbn [bind] in Hend; [|discriminate].
    injection Hend as Hre Hfin. rewrite <- Hfin, <- Hre.
    cbn [wrapped ExtentWriter.derived ZP.underlying_extent_writer_].
    destruct (rec_End_calls _ _ _ Hend0) as [-> ->].
    rewrite Hcallsw. split; reflexivity.
  - destruct (c =? 0) eqn:Hz; [apply N.eqb_eq in Hz; contradiction|].
    assert (Hlt : c < block_size) by (destruct Halw; [contradiction|assumption]).
    rewrite size_sub_small in Hend
      by (unfold is_uint32 in Hbs; pose proof uint32_below_size; lia).
    rewrite (padding_fits _ _ Hbs) in Hend.
    destruct (ExtentWriter.Write (wrapped w1) (ZP.zeros (block_size - c)))
      as [[pad_ok u2]|f] eqn:Hpad; cbn [bind] in Hend; [|discriminate].
    destruct (rec_Write_calls _ _ _ _ Hpad) as [Hcalls2 Hflag2].
    rewrite count_of_zeros in Hcalls2.
    exists pad_ok. destruct pad_ok.
    + destruct (ExtentWriter.End u2) as [[re u3]|f] eqn:Hend0;
        cbn [bind] in Hend; [|discriminate].
      injection Hend as Hre Hfin. rewrite <- Hfin, <- Hre.
      cbn [wrapped ExtentWriter.derived ZP.underlying_extent_writer_].
      destruct (rec_End_calls _ _ _ Hend0) as [-> ->].
      rewrite Hcalls2, Hcallsw. cbn [app]. rewrite <- app_assoc.
      repeat split; try reflexivity. discriminate.
    + injection Hend as Hre Hfin. rewrite <- Hfin, <- Hre.
      cbn [wrapped ExtentWriter.derived ZP.underlying_extent_writer_].
      rewrite Hcalls2, Hflag2, Hflagw, Hcallsw. cbn [app].
      repeat split; reflexivity.
Qed.

End RecordingCalls.

(** ** The zero-pad decorator: what finalize does *)

Ltac buffers_all_fit :=
  repeat (apply Forall_cons; [vm_compute; discriminate|]); apply Forall_nil.

(** C2: in a session of a decorator in which the bytes of the successful
    [Write] calls are not a whole number of blocks, [End] makes exactly one
    more [Write] call on the wrapped writer, of
    [block_size - total mod block_size] zero bytes, after the forwarded
    calls of the caller; when that call succeeds it then calls [End] on the
    wrapped writer and returns its result, and when it fails [End] returns
    [false] and calls nothing more.  After 4096 + 100 bytes with blocks of
    4096 bytes the one more call writes 3996 zero bytes. *)
Theorem zero_pad_finalize_pads :
  (forall (FD U : Type) (inst : ExtentWriterOps FD U) (u : U)
          (fd : option FD) (extents : list Extent) (block_size : N)
          (writes : list (list byte))
          (o : outcome (S := ZP.t (Rec.t FD U))),
      session (ExtentWriter.ctor (ZP.ctor (ExtentWriter.ctor (Rec.ctor u))))
              fd extents block_size writes = Ret o ->
      is_uint32 block_size ->
      buffers_fit writes ->
      bytes_written writes (write_results o) mod block_size <> 0 ->
      exists pad_ok : bool,
        calls_of (wrapped (final o))
        = CallInit fd extents block_size (init_result o)
            :: forwarded writes (write_results o)
            ++ CallWrite
                 (ZP.zeros (block_size
                            - bytes_written writes (write_results o)
                              mod block_size))
                 (block_size
                  - bytes_written writes (write_results o) mod block_size)
                 pad_ok
               :: (if pad_ok then [CallEndImpl (end_result o)] else [])
        /\ (pad_ok = false -> end_result o = false)
        /\ ExtentWriter.end_called_ (wrapped (final o)) = pad_ok)
  /\ (forall (FD U : Type) (inst : ExtentWriterOps FD U) (u : U)
             (fd : option FD) (extents : list Extent)
             (writes : list (list byte))
             (o : outcome (S := ZP.t (Rec.t FD U))),
      session (ExtentWriter.ctor (ZP.ctor (ExtentWriter.ctor (Rec.ctor u))))
              fd extents 4096 writes = Ret o ->
      buffers_fit writes ->
      bytes_written writes (write_results o) = 4096 + 100 ->
      exists pad_ok : bool,
        calls_of (wrapped (final o))
        = CallInit fd extents 4096 (init_result o)
            :: forwarded writes (write_results o)
            ++ CallWrite (repeat x00 (N.to_nat 3996)) 3996 pad_ok
               :: (if pad_ok then [CallEndImpl (end_result o)] else [])
        /\ (pad_ok = false -> end_result o = false)).
Proof.
  split.
  - intros FD U inst u fd extents block_size writes o Hrun Hbs Hfit Hodd.
    exact (proj2 (zero_pad_session_calls u fd extents block_size writes o
                    Hrun Hbs Hfit) Hodd).
  - intros FD U inst u fd extents writes o Hrun Hfit Htotal.
    destruct (proj2 (zero_pad_session_calls u fd extents 4096 writes o
                       Hrun eq_refl Hfit))
      as (pad_ok & Hcalls & Hfail & _).
    { rewrite Htotal. vm_compute. discriminate. }
    exists pad_ok. split; [|exact Hfail].
    rewrite Hcalls, Htotal.
    replace (4096 - (4096 + 100) mod 4096) with 3996 by reflexivity.
    reflexivity.
Qed.

Lemma zero_pad_finalize_pads_witness :
  exists o,
    unaligned_session = Ret o
    /\ write_results o = [true; true]
    /\ exists pad_ok : bool,
         calls_of (wrapped (final o))
         = CallInit (Some (mkTargetLog [])) [mkExtent 0 2] 4096 (init_result o)
             :: forwarded [repeat x01 (N.to_nat 4096); repeat x02 (N.to_nat 100)]
                  (write_results o)
             ++ CallWrite (repeat x00 (N.to_nat 3996)) 3996 pad_ok
                :: (if pad_ok then [CallEndImpl (end_result o)] else [])
         /\ (pad_ok = false -> end_result o = false).
Proof.
  destruct unaligned_session as [o|f] eqn:Hrun; [|vm_compute in Hrun; discriminate].
  exists o. split; [reflexivity|].
  assert (Hrs : write_results o = [true; true])
    by (vm_compute in Hrun; injection Hrun as <-; reflexivity).
  split; [exact Hrs|].
  apply (proj2 zero_pad_finalize_pads TargetLog (D.t TargetLog) _ D.ctor).
  - exact Hrun.
  - buffers_all_fit.
  - rewrite Hrs. reflexivity.
Defined.

(** C6: in a session of a decorator in which the bytes of the successful
    [Write] calls are a whole number of blocks (none at all included), [End]
    makes no [Write] call on the wrapped writer: after the forwarded calls of
    the caller the wrapped writer receives its [End] and nothing else, and
    the decorator returns what that returned. *)
Theorem zero_pad_finalize_aligned :
  forall (FD U : Type) (inst : ExtentWriterOps FD U) (u : U)
         (fd : option FD) (extents : list Extent) (block_size : N)
         (writes : list (list byte))
         (o : outcome (S := ZP.t (Rec.t FD U))),
    session (ExtentWriter.ctor (ZP.ctor (ExtentWriter.ctor (Rec.ctor u))))
            fd extents block_size writes = Ret o ->
    is_uint32 block_size ->
    buffers_fit writes ->
    bytes_written writes (write_results o) mod block_size = 0 ->
    calls_of (wrapped (final o))
    = CallInit fd extents block_size (init_result o)
        :: forwarded writes (write_results o)
        ++ [CallEndImpl (end_result o)]
    /\ ExtentWriter.end_called_ (wrapped (final o)) = true.
Proof.
  intros FD U inst u fd extents block_size writes o Hrun Hbs Hfit Heven.
  exact (proj1 (zero_pad_session_calls u fd extents block_size writes o
                  Hrun Hbs Hfit) Heven).
Qed.

Lemma zero_pad_finalize_aligned_witness :
  exists o,
    aligned_session = Ret o
    /\ write_results o = [true]
    /\ calls_of (wrapped (final o))
       = CallInit (Some (mkTargetLog [])) [mkExtent 0 2] 4096 (init_result o)
           :: forwarded [repeat x01 (N.to_nat 4096)] (write_results o)
           ++ [CallEndImpl (end_result o)]
    /\ ExtentWriter.end_called_ (wrapped (final o)) = true.
Proof.
  destruct aligned_session as [o|f] eqn:Hrun; [|vm_compute in Hrun; discriminate].
  exists o. split; [reflexivity|].
  assert (Hrs : write_results o = [true])
    by (vm_compute in Hrun; injection Hrun as <-; reflexivity).
  split; [exact Hrs|].
  apply (zero_pad_finalize_aligned TargetLog (D.t TargetLog) _ D.ctor).
  - exact Hrun.
  - reflexivity.
  - buffers_all_fit.
  - rewrite Hrs. reflexivity.
Defined.

(** ** The zero-pad decorator: one call of [Write] *)

(** C4: a [Write] call on a decorator whose block size is not zero, the sum
    of counter and count being within [size_t], makes one [Write] call on the
    wrapped writer with the same buffer and the same count; it returns what
    that call returned; when that is [true] the counter becomes
    [(counter + count) mod block_size], and when it is [false] the counter
    and the block size are as before. *)
Theorem zero_pad_Write_forwards :
  forall (FD U : Type) (inst : ExtentWriterOps FD U)
         (w : ZP.t (Rec.t FD U)) (bytes : list byte),
    ZP.block_size_ w <> 0 ->
    ZP.bytes_written_mod_block_size_ w + count_of bytes < SIZE_MODULUS ->
    (forall (r : bool) (u' : ExtentWriter.t (Rec.t FD U)),
        ExtentWriter.Write (ZP.underlying_extent_writer_ w) bytes
        = Ret (r, u') ->
        ZP.Write w bytes
        = Ret (r, ZP.mk u' (ZP.block_size_ w)
                    (if r
                     then (ZP.bytes_written_mod_block_size_ w + count_of bytes)
                          mod ZP.block_size_ w
                     else ZP.bytes_written_mod_block_size_ w)))
    /\ (forall (r : bool) (w' : ZP.t (Rec.t FD U)),
        ZP.Write w bytes = Ret (r, w') ->
        calls_of (ZP.underlying_extent_writer_ w')
        = calls_of (ZP.underlying_extent_writer_ w)
          ++ [CallWrite bytes (count_of bytes) r]
        /\ ZP.block_size_ w' = ZP.block_size_ w
        /\ ZP.bytes_written_mod_block_size_ w'
           = if r
             then (ZP.bytes_written_mod_block_size_ w + count_of bytes)
                  mod ZP.block_size_ w
             else ZP.bytes_written_mod_block_size_ w).
Proof.
  intros FD U inst w bytes Hbs Hsum.
  assert (Hfwd : forall (r : bool) (u' : ExtentWriter.t (Rec.t FD U)),
    ExtentWriter.Write (ZP.underlying_extent_writer_ w) bytes = Ret (r, u') ->
    ZP.Write w bytes
    = Ret (r, ZP.mk u' (ZP.block_size_ w)
                (if r
                 then (ZP.bytes_written_mod_block_size_ w + count_of bytes)
                      mod ZP.block_size_ w
                 else ZP.bytes_written_mod_block_size_ w))).
  { intros r u' Hcall. unfold ZP.Write. rewrite Hcall. cbn [bind].
    destruct r; [|reflexivity].
    apply N.eqb_neq in Hbs. rewrite Hbs, (size_add_small _ _ Hsum).
    reflexivity. }
  split; [exact Hfwd|].
  intros r w' Hrun.
  destruct (ExtentWriter.Write (ZP.underlying_extent_writer_ w) bytes)
    as [[r1 u1]|f] eqn:Hcall.
  - rewrite (Hfwd r1 u1 eq_refl) in Hrun. injection Hrun as Hr Hw. subst r1 w'.
    cbn [ZP.underlying_extent_writer_ ZP.block_size_
         ZP.bytes_written_mod_block_size_].
    destruct (rec_Write_calls _ _ _ _ Hcall) as [-> _]. auto.
  - unfold ZP.Write in Hrun. rewrite Hcall in Hrun. discriminate.
Qed.

Lemma zero_pad_Write_forwards_witness :
  exists u',
    ExtentWriter.Write
      (ExtentWriter.ctor
         (Rec.ctor (D.mk (Some (mkTargetLog [])) 4 0 [mkExtent 1 1] 0)))
      [x01; x02] = Ret (true, u')
    /\ ZP.Write
         (ZP.mk (ExtentWriter.ctor
                   (Rec.ctor (D.mk (Some (mkTargetLog [])) 4 0 [mkExtent 1 1] 0)))
                4 3)
         [x01; x02]
       = Ret (true, ZP.mk u' 4 1).
Proof.
  eexists. split; [reflexivity|].
  apply (proj1 (zero_pad_Write_forwards TargetLog (D.t TargetLog) _
                  (ZP.mk (ExtentWriter.ctor
                            (Rec.ctor (D.mk (Some (mkTargetLog [])) 4 0
                                            [mkExtent 1 1] 0)))
                         4 3)
                  [x01; x02] ltac:(discriminate) eq_refl) true).
  reflexivity.
Defined.

(** C9: when the call that [Write] of a decorator forwards succeeds, the
    call is a modulo by zero exactly when the decorator's block size is zero,
    and returns [true] with the counter reduced modulo the block size
    otherwise; the constructor leaves the block size at zero, so on a
    decorator straight from its constructor every such call is a modulo by
    zero; [Init] sets the block size to its argument; and a forwarded call
    that fails involves no modulo at all. *)
Theorem zero_pad_Write_modulo_by_zero :
  forall (FD U : Type) (inst : ExtentWriterOps FD U),
    (forall (w : ZP.t U) (bytes : list byte) (u' : ExtentWriter.t U),
        ExtentWriter.Write (ZP.underlying_extent_writer_ w) bytes
        = Ret (true, u') ->
        (ZP.Write w bytes = Fault ModuloByZero <-> ZP.block_size_ w = 0)
        /\ (ZP.block_size_ w <> 0 ->
            ZP.Write w bytes
            = Ret (true,
                   ZP.mk u' (ZP.block_size_ w)
                     (size_add (ZP.bytes_written_mod_block_size_ w)
                               (count_of bytes) mod ZP.block_size_ w))))
    /\ (forall (u u' : ExtentWriter.t U) (bytes : list byte),
        ExtentWriter.Write u bytes = Ret (true, u') ->
        ZP.Write (ZP.ctor u) bytes = Fault ModuloByZero)
    /\ (forall (w w' : ZP.t U) (fd : option FD) (extents : list Extent)
               (block_size : N) (r : bool),
        ZP.Init w fd extents block_size = Ret (r, w') ->
        ZP.block_size_ w' = block_size)
    /\ (forall (w : ZP.t U) (bytes : list byte) (u' : ExtentWriter.t U),
        ExtentWriter.Write (ZP.underlying_extent_writer_ w) bytes
        = Ret (false, u') ->
        ZP.Write w bytes
        = Ret (false, ZP.mk u' (ZP.block_size_ w)
                        (ZP.bytes_written_mod_block_size_ w))).
Proof.
  intros FD U inst.
  assert (Hok : forall (w : ZP.t U) (bytes : list byte) (u' : ExtentWriter.t U),
    ExtentWriter.Write (ZP.underlying_extent_writer_ w) bytes = Ret (true, u') ->
    (ZP.Write w bytes = Fault ModuloByZero <-> ZP.block_size_ w = 0)
    /\ (ZP.block_size_ w <> 0 ->
        ZP.Write w bytes
        = Ret (true,
               ZP.mk u' (ZP.block_size_ w)
                 (size_add (ZP.bytes_written_mod_block_size_ w)
                           (count_of bytes) mod ZP.block_size_ w)))).
  { intros w bytes u' Hcall. unfold ZP.Write. rewrite Hcall. cbn [bind].
    destruct (N.eqb_spec (ZP.block_size_ w) 0) as [Hz|Hnz].
    - split; [split; auto | contradiction].
    - split; [split; [discriminate | contradiction] | reflexivity]. }
  split; [exact Hok|]. split; [|split].
  - intros u u' bytes Hcall.
    apply (proj1 (Hok (ZP.ctor u) bytes u' Hcall)). reflexivity.
  - intros w w' fd extents block_size r. unfold ZP.Init.
    destruct (ExtentWriter.Init _ fd extents block_size) as [[r1 u1]|f];
      cbn [bind]; intros Hr; inversion Hr. reflexivity.
  - intros w bytes u' Hcall. unfold ZP.Write. rewrite Hcall. reflexivity.
Qed.

Lemma zero_pad_Write_modulo_by_zero_witness :
  ZP.Write (ZP.ctor (ExtentWriter.ctor (D.ctor (FD := TargetLog)))) []
  = Fault ModuloByZero.
Proof.
  apply (proj1 (proj2 (zero_pad_Write_modulo_by_zero
                         TargetLog (D.t TargetLog) _))
           (ExtentWriter.ctor D.ctor) (ExtentWriter.ctor D.ctor) []).
  reflexivity.
Defined.

(** C10: when [EndImpl] of a decorator gets as far as its last statement,
    what it returns is what [End] of the wrapped writer returns, and the
    wrapped writer is left as that [End] leaves it: with [end_called_] set,
    and with the state its own [EndImpl] produced. *)
Theorem zero_pad_EndImpl_calls_End :
  forall (FD U : Type) (inst : ExtentWriterOps FD U) (w : ZP.t U)
         (u1 u2 : ExtentWriter.t U) (r : bool),
    reaches_delegation w u1 ->
    ExtentWriter.End u1 = Ret (r, u2) ->
    ZP.EndImpl w
    = Ret (r, ZP.mk u2 (ZP.block_size_ w) (ZP.bytes_written_mod_block_size_ w))
    /\ ExtentWriter.end_called_ u2 = true
    /\ EndImpl (ExtentWriter.derived u1) = Ret (r, ExtentWriter.derived u2).
Proof.
  intros FD U inst w u1 u2 r Hreach Hend.
  destruct (End_sets_flag _ _ _ Hend) as [Hflag Himpl].
  split; [|split; assumption].
  unfold ZP.EndImpl, ZP.delegate_End.
  destruct Hreach as [[Hz ->]|(Hnz & Hsize & Hpad)].
  - rewrite Hz. cbn [N.eqb negb]. rewrite Hend. reflexivity.
  - apply N.eqb_neq in Hnz. rewrite Hnz. cbn [negb].
    apply N.ltb_ge in Hsize. rewrite Hsize, Hpad.
    cbn [bind ZP.underlying_extent_writer_ ZP.block_size_
         ZP.bytes_written_mod_block_size_].
    rewrite Hend. reflexivity.
Qed.

Lemma zero_pad_EndImpl_calls_End_witness :
  ZP.EndImpl (ZP.mk (ExtentWriter.ctor (D.ctor (FD := TargetLog))) 4 0)
  = Ret (true, ZP.mk (ExtentWriter.mk true (D.ctor (FD := TargetLog))) 4 0)
  /\ ExtentWriter.end_called_ (ExtentWriter.mk true (D.ctor (FD := TargetLog)))
     = true
  /\ EndImpl (ExtentWriter.derived (ExtentWriter.ctor (D.ctor (FD := TargetLog))))
     = Ret (true,
            ExtentWriter.derived (ExtentWriter.mk true (D.ctor (FD := TargetLog)))).
Proof.
  apply (zero_pad_EndImpl_calls_End TargetLog (D.t TargetLog) _
           (ZP.mk (ExtentWriter.ctor D.ctor) 4 0) (ExtentWriter.ctor D.ctor)).
  - left. split; reflexivity.
  - reflexivity.
Defined.

(** ** Two decorators, one on top of the other *)

Section Stacked.
Context {FD U : Type} `{ExtentWriterOps FD U}.

Lemma zp_Write_keeps_aligned (w w' : ExtentWriter.t (ZP.t U))
    (bytes : list byte) (r : bool) :
  ExtentWriter.Write w bytes = Ret (r, w') ->
  aligned_counter (zp_block_size w) (zp_counter w) ->
  zp_block_size w' = zp_block_size w
  /\ aligned_counter (zp_block_size w') (zp_counter w').
Proof.
  rewrite zp_Write_cases. intros Hrun Hal.
  destruct (ExtentWriter.Write (wrapped w) bytes) as [[[|] u]|f];
    [|injection Hrun as _ <-; split; [reflexivity | exact Hal]|discriminate].
  destruct (N.eqb_spec (zp_block_size w) 0) as [Hz|Hnz]; [discriminate|].
  injection Hrun as _ <-. split; [reflexivity|].
  right. cbn. apply N.mod_lt. exact Hnz.
Qed.

Lemma stacked_Init (d : ExtentWriter.t (ZP.t (ZP.t U)))
    (s : ExtentWriter.t (ZP.t U)) (fd : option FD) (extents : list Extent)
    (block_size : N) :
  wrapped (wrapped d) = wrapped s ->
  zp_counter d = zp_counter s ->
  zp_counter (wrapped d) = zp_counter s ->
  agree (fun x y => fst x = fst y /\ stacked (snd x) (snd y)
                    /\ zp_block_size (snd y) = block_size
                    /\ zp_counter (snd y) = zp_counter s)
        (ExtentWriter.Init d fd extents block_size)
        (ExtentWriter.Init s fd extents block_size).
Proof.
  intros Hw Hc Hc'.
  rewrite (zp_Init_cases d), (zp_Init_cases (wrapped d)), (zp_Init_cases s), Hw.
  destruct (ExtentWriter.Init (wrapped s) fd extents block_size)
    as [[r u]|f]; cbn [bind agree]; [|reflexivity].
  unfold stacked. cbn. rewrite Hc, Hc'. repeat split; reflexivity.
Qed.

Lemma stacked_Write (d : ExtentWriter.t (ZP.t (ZP.t U)))
    (s : ExtentWriter.t (ZP.t U)) (bytes : list byte) :
  stacked d s ->
  agree (fun x y => fst x = fst y /\ stacked (snd x) (snd y))
        (ExtentWriter.Write d bytes) (ExtentWriter.Write s bytes).
Proof.
  intros (Hw & Hb & Hb' & Hc & Hc').
  rewrite (zp_Write_cases d), (zp_Write_cases (wrapped d)), (zp_Write_cases s).
  rewrite Hw, Hb, Hb', Hc, Hc'.
  destruct (ExtentWriter.Write (wrapped s) bytes) as [[[|] u]|f];
    cbn [agree]; [| unfold stacked; cbn; repeat split; auto | reflexivity].
  destruct (zp_block_size s =? 0); cbn [agree]; [reflexivity|].
  unfold stacked. cbn. repeat split; auto.
Qed.

Lemma stacked_write_all (writes : list (list byte)) :
  forall (d : ExtentWriter.t (ZP.t (ZP.t U))) (s : ExtentWriter.t (ZP.t U)),
    stacked d s ->
    aligned_counter (zp_block_size s) (zp_counter s) ->
    agree (fun x y => fst x = fst y /\ stacked (snd x) (snd y)
                      /\ zp_block_size (snd y) = zp_block_size s
                      /\ aligned_counter (zp_block_size (snd y))
                                         (zp_counter (snd y)))
          (write_all d writes) (write_all s writes).
Proof.
  induction writes as [|b writes IH]; intros d s Hst Hal.
  - cbn. auto.
  - rewrite !write_all_cons.
    pose proof (stacked_Write d s b Hst) as Hstep.
    destruct (ExtentWriter.Write d b) as [[r2 d1]|f2];
      destruct (ExtentWriter.Write s b) as [[r1 s1]|f1] eqn:Hs;
      cbn [agree fst snd] in Hstep; try contradiction; cbn [bind];
      [|exact Hstep].
    destruct Hstep as [-> Hst1].
    destruct (zp_Write_keeps_aligned _ _ _ _ Hs Hal) as [Hbs1 Hal1].
    specialize (IH d1 s1 Hst1 Hal1).
    destruct (write_all d1 writes) as [[rs2 d2]|g2];
      destruct (write_all s1 writes) as [[rs1 s2]|g1];
      cbn [agree fst snd] in IH; try contradiction; cbn [bind agree fst snd];
      [|exact IH].
    destruct IH as (-> & Hst2 & Hbs2 & Hal2).
    split; [reflexivity|]. split; [exact Hst2|].
    split; [congruence | exact Hal2].
Qed.

Lemma stacked_End (d : ExtentWriter.t (ZP.t (ZP.t U)))
    (s : ExtentWriter.t (ZP.t U)) :
  stacked d s ->
  aligned_counter (zp_block_size s) (zp_counter s) ->
  zp_block_size s < SIZE_MODULUS ->
  agree (fun x y => fst x = fst y
                    /\ wrapped (wrapped (snd x)) = wrapped (snd y))
        (ExtentWriter.End d) (ExtentWriter.End s).
Proof.
  intros (Hw & Hb & Hb' & Hc & Hc') Hal Hbs.
  rewrite (zp_End_cases d), (zp_End_cases s), Hb, Hc.
  destruct (N.eqb_spec (zp_counter s) 0) as [Hz|Hnz].
  - rewrite (zp_End_cases (wrapped d)), Hc', Hb', Hw, Hz. cbn [N.eqb].
    destruct (ExtentWriter.End (wrapped s)) as [[r u]|f]; cbn; auto.
  - assert (Hlt : zp_counter s < zp_block_size s)
      by (destruct Hal; [contradiction | assumption]).
    destruct (OBJECT_MAX <? size_sub (zp_block_size s) (zp_counter s));
      [cbn [agree]; reflexivity|].
    rewrite (zp_Write_cases (wrapped d)), Hw, Hb', Hc'.
    destruct (ExtentWriter.Write (wrapped s) _) as [[[|] u]|f];
      cbn [bind agree]; [| cbn; auto | reflexivity].
    destruct (N.eqb_spec (zp_block_size s) 0) as [Hbz|Hbnz]; [lia|].
    cbn [bind]. rewrite zp_End_cases.
    assert (Hzero : size_add (zp_counter s)
                      (count_of (ZP.zeros (size_sub (zp_block_size s)
                                                    (zp_counter s))))
                    mod zp_block_size s = 0).
    { rewrite count_of_zeros, size_sub_small by lia.
      rewrite size_add_small by lia.
      replace (zp_counter s + (zp_block_size s - zp_counter s))
        with (zp_block_size s) by lia.
      apply N.Div0.mod_same. }
    unfold zp_counter at 1, wrapped at 1. cbn [ExtentWriter.derived
      ZP.bytes_written_mod_block_size_ ZP.underlying_extent_writer_].
    rewrite Hzero. cbn [N.eqb].
    cbn [wrapped ExtentWriter.derived ZP.underlying_extent_writer_].
    destruct (ExtentWriter.End u) as [[r u']|f]; cbn; auto.
Qed.

(** A session through two decorators and the same session through one: the
    caller is returned the same values and the wrapped writer ends up the
    same, or both sessions end in the same fault. *)
Lemma stacked_session (w : ExtentWriter.t U) (fd : option FD)
    (extents : list Extent) (block_size : N) (writes : list (list byte)) :
  is_uint32 block_size ->
  agree (fun o2 o1 =>
           init_result o2 = init_result o1
           /\ write_results o2 = write_results o1
           /\ end_result o2 = end_result o1
           /\ wrapped (wrapped (final o2)) = wrapped (final o1))
        (session (ExtentWriter.ctor (ZP.ctor (ExtentWriter.ctor (ZP.ctor w))))
                 fd extents block_size writes)
        (session (ExtentWriter.ctor (ZP.ctor w)) fd extents block_size writes).
Proof.
  intros Hbs. unfold session.
  pose proof (stacked_Init
                (ExtentWriter.ctor (ZP.ctor (ExtentWriter.ctor (ZP.ctor w))))
                (ExtentWriter.ctor (ZP.ctor w)) fd extents block_size
                eq_refl eq_refl eq_refl) as Hinit.
  destruct (ExtentWriter.Init (ExtentWriter.ctor (ZP.ctor (ExtentWriter.ctor
              (ZP.ctor w)))) fd extents block_size) as [[r2 d0]|f2];
    destruct (ExtentWriter.Init (ExtentWriter.ctor (ZP.ctor w)) fd extents
                block_size) as [[r1 s0]|f1];
    cbn [agree fst snd] in Hinit; try contradiction; cbn [bind];
    [|exact Hinit].
  destruct Hinit as (-> & Hst0 & Hbs0 & Hc0). cbn in Hc0.
  assert (Hal0 : aligned_counter (zp_block_size s0) (zp_counter s0))
    by (left; exact Hc0).
  pose proof (stacked_write_all writes d0 s0 Hst0 Hal0) as Hwr.
  destruct (write_all d0 writes) as [[rs2 d1]|g2];
    destruct (write_all s0 writes) as [[rs1 s1]|g1];
    cbn [agree fst snd] in Hwr; try contradiction; cbn [bind];
    [|exact Hwr].
  destruct Hwr as (-> & Hst1 & Hbs1 & Hal1).
  pose proof (stacked_End d1 s1 Hst1 Hal1) as Hend.
  destruct (ExtentWriter.End d1) as [[re2 d2]|h2];
    destruct (ExtentWriter.End s1) as [[re1 s2]|h1];
    cbn [agree fst snd bind] in Hend |- *;
    try (apply Hend; unfold is_uint32 in Hbs; pose proof uint32_below_size; lia).
  cbn. destruct Hend as [-> Hfin];
    [unfold is_uint32 in Hbs; pose proof uint32_below_size; lia|].
  auto.
Qed.

End Stacked.

Section StackedRecorded.
Context {FD U : Type} `{ExtentWriterOps FD U}.

(** [End] on a decorator of a decorator of a recording writer, the two
    decorators having the same block size and the same aligned counter: the
    outer decorator writes the padding through the inner one, whose counter
    it takes to zero, and the inner one adds none. *)
Lemma stacked_End_recorded
    (d d' : ExtentWriter.t (ZP.t (ZP.t (Rec.t FD U)))) (r : bool) :
  zp_counter (wrapped d) = zp_counter d ->
  zp_block_size (wrapped d) = zp_block_size d ->
  aligned_counter (zp_block_size d) (zp_counter d) ->
  is_uint32 (zp_block_size d) ->
  ExtentWriter.End d = Ret (r, d') ->
  zp_counter d' = zp_counter d
  /\ (zp_counter d = 0 ->
      calls_of (wrapped (wrapped d'))
      = calls_of (wrapped (wrapped d)) ++ [CallEndImpl r]
      /\ zp_counter (wrapped d') = 0
      /\ ExtentWriter.end_called_ (wrapped d') = true)
  /\ (zp_counter d <> 0 ->
      exists pad_ok : bool,
        calls_of (wrapped (wrapped d'))
        = calls_of (wrapped (wrapped d))
          ++ CallWrite (ZP.zeros (zp_block_size d - zp_counter d))
                       (zp_block_size d - zp_counter d) pad_ok
             :: (if pad_ok then [CallEndImpl r] else [])
        /\ zp_counter (wrapped d') = (if pad_ok then 0 else zp_counter d)
        /\ ExtentWriter.end_called_ (wrapped d')
           = pad_ok || ExtentWriter.end_called_ (wrapped d)
        /\ (pad_ok = false -> r = false)).
Proof.
  intros Hc' Hb' Hal Hbs Hend.
  destruct (zp_End_keeps _ _ _ Hend) as (_ & Hkeep & _).
  split; [exact Hkeep|].
  rewrite zp_End_cases in Hend.
  pose proof uint32_below_size as Hbig. unfold is_uint32 in Hbs.
  split; intros Hc.
  - rewrite Hc in Hend. cbn [N.eqb] in Hend.
    rewrite (zp_End_cases (wrapped d)), Hc', Hc in Hend. cbn [N.eqb] in Hend.
    destruct (ExtentWriter.End (wrapped (wrapped d))) as [[r1 u1]|f] eqn:Hend0;
      cbn [bind] in Hend; [|discriminate].
    injection Hend as <- <-.
    destruct (rec_End_calls _ _ _ Hend0) as [Hcalls _].
    cbn. auto.
  - assert (Hlt : zp_counter d < zp_block_size d)
      by (destruct Hal; [contradiction | assumption]).
    apply N.eqb_neq in Hc. rewrite Hc in Hend. apply N.eqb_neq in Hc.
    rewrite size_sub_small in Hend by lia.
    rewrite (padding_fits _ _ Hbs) in Hend.
    rewrite (zp_Write_cases (wrapped d)), Hb', Hc' in Hend.
    destruct (ExtentWriter.Write (wrapped (wrapped d)) _)
      as [[pad_ok u1]|f] eqn:Hpad; cbn [bind] in Hend; [|discriminate].
    destruct (rec_Write_calls _ _ _ _ Hpad) as [Hcalls1 _].
    rewrite count_of_zeros in Hcalls1.
    exists pad_ok. destruct pad_ok.
    + destruct (N.eqb_spec (zp_block_size d) 0) as [Hbz|Hbnz]; [lia|].
      cbn [bind] in Hend. rewrite zp_End_cases in Hend.
      assert (Hzero : size_add (zp_counter d)
                        (count_of (ZP.zeros (zp_block_size d - zp_counter d)))
                      mod zp_block_size d = 0).
      { rewrite count_of_zeros, size_add_small by lia.
        replace (zp_counter d + (zp_block_size d - zp_counter d))
          with (zp_block_size d) by lia.
        apply N.Div0.mod_same. }
      unfold zp_counter at 1, wrapped at 1 in Hend.
      cbn [ExtentWriter.derived ZP.bytes_written_mod_block_size_
           ZP.underlying_extent_writer_] in Hend.
      rewrite Hzero in Hend. cbn [N.eqb] in Hend.
      cbn [wrapped ExtentWriter.derived ZP.underlying_extent_writer_] in Hend.
      destruct (ExtentWriter.End u1) as [[r1 u2]|f] eqn:Hend0;
        cbn [bind] in Hend; [|discriminate].
      injection Hend as <- <-.
      destruct (rec_End_calls _ _ _ Hend0) as [Hcalls2 _].
      cbn. rewrite Hcalls2, Hcalls1, <- app_assoc.
      repeat split; try reflexivity. discriminate.
    + cbn [bind] in Hend. injection Hend as <- <-.
      cbn. rewrite Hcalls1. repeat split; reflexivity.
Qed.

(** The session through two decorators of a recording writer, from the
    constructors: what the writer receives and how the decorators are
    left. *)
Lemma stacked_session_recorded (u : U) (fd : option FD)
    (extents : list Extent) (block_size : N) (writes : list (list byte))
    (o : outcome (S := ZP.t (ZP.t (Rec.t FD U)))) :
  session (ExtentWriter.ctor
             (ZP.ctor (ExtentWriter.ctor
                         (ZP.ctor (ExtentWriter.ctor (Rec.ctor u))))))
          fd extents block_size writes = Ret o ->
  is_uint32 block_size ->
  buffers_fit writes ->
  zp_counter (final o)
  = bytes_written writes (write_results o) mod block_size
  /\ (bytes_written writes (write_results o) mod block_size = 0 ->
      calls_of (wrapped (wrapped (final o)))
      = CallInit fd extents block_size (init_result o)
          :: forwarded writes (write_results o)
          ++ [CallEndImpl (end_result o)]
      /\ zp_counter (wrapped (final o)) = 0
      /\ ExtentWriter.end_called_ (wrapped (final o)) = true)
  /\ (bytes_written writes (write_results o) mod block_size <> 0 ->
      exists pad_ok : bool,
        calls_of (wrapped (wrapped (final o)))
        = CallInit fd extents block_size (init_result o)
            :: forwarded writes (write_results o)
            ++ CallWrite
                 (ZP.zeros (block_size
                            - bytes_written writes (write_results o)
                              mod block_size))
                 (block_size
                  - bytes_written writes (write_results o) mod block_size)
                 pad_ok
               :: (if pad_ok then [CallEndImpl (end_result o)] else [])
        /\ zp_counter (wrapped (final o))
           = (if pad_ok then 0
              else bytes_written writes (write_results o) mod block_size)
        /\ ExtentWriter.end_called_ (wrapped (final o)) = pad_ok
        /\ (pad_ok = false -> end_result o = false)).
Proof.
  intros Hrun Hbs Hfit.
  destruct (session_inv _ _ _ _ _ _ Hrun) as (w0 & w1 & Hinit & Hwrites & Hend).
  destruct (zp_Init_keeps _ _ _ _ _ _ Hinit) as (Hb0 & Hc0 & Hinit1).
  destruct (zp_Init_keeps _ _ _ _ _ _ Hinit1) as (Hb0' & Hc0' & Hinit2).
  destruct (rec_Init_calls _ _ _ _ _ _ Hinit2) as [Hcalls0 _].
  pose proof (perform_flag _ _ (OpInit fd extents block_size) _ Hinit1)
    as Hflag0.
  cbn in Hc0, Hc0', Hcalls0, Hflag0.
  destruct (zp_write_all writes w0 w1 (write_results o) Hwrites)
    as (Hfwd & Hb1 & _ & Hal1 & Hc1);
    [rewrite Hb0; exact Hbs | rewrite Hc0; left; reflexivity | exact Hfit |].
  destruct (zp_write_all writes (wrapped w0) (wrapped w1) (write_results o) Hfwd)
    as (Hfwd' & Hb1' & Hflag1 & _ & Hc1');
    [rewrite Hb0'; exact Hbs | rewrite Hc0'; left; reflexivity | exact Hfit |].
  pose proof (rec_write_all_calls _ _ _ _ Hfwd') as Hcalls1.
  rewrite Hcalls0 in Hcalls1. cbn [app] in Hcalls1.
  rewrite Hb0 in Hb1, Hal1, Hc1. rewrite Hb0' in Hb1', Hc1'.
  rewrite Hc0 in Hc1. rewrite Hc0' in Hc1'. rewrite Hflag0 in Hflag1.
  cbn [N.add] in Hc1, Hc1'.
  destruct (stacked_End_recorded w1 (final o) (end_result o))
    as (Hkeep & Heven & Hodd); try assumption.
  - congruence.
  - congruence.
  - rewrite Hb1. exact Hal1.
  - rewrite Hb1. exact Hbs.
  - rewrite Hkeep, Hc1. split; [reflexivity|].
    rewrite Hb1, Hc1, Hcalls1, Hflag1 in *.
    split.
    + intros Hz. destruct (Heven Hz) as (-> & -> & ->). auto.
    + intros Hnz. destruct (Hodd Hnz) as (pad_ok & -> & -> & -> & Hfail).
      exists pad_ok. rewrite orb_false_r. repeat split; auto.
Qed.

End StackedRecorded.

(** C5, as the code has it: a session through two decorators of a writer
    (here one that records its calls) and the same session through one
    return the caller the same values and leave the writer with the same
    calls, arguments, results and state, or end in the same fault.  In the
    session through two, the padding is written by the outer decorator,
    whose counter stands at the bytes written modulo the block size; it
    passes through [Write] of the inner decorator, whose counter it takes to
    zero, so that the inner decorator adds none and the writer receives one
    padding write.  The two differ at teardown: when the padding write
    fails, the inner decorator has not had its [End] and its destructor
    writes to the error log, which the one decorator of the other session
    never does.  The block size is one a [uint32_t] holds and no buffer is
    longer than an object can be. *)
Theorem stacked_zero_pad_outer_pads :
  forall (FD U : Type) (inst : ExtentWriterOps FD U) (u : U)
         (fd : option FD) (extents : list Extent) (block_size : N)
         (writes : list (list byte)),
    is_uint32 block_size ->
    buffers_fit writes ->
    agree (fun o2 o1 =>
             init_result o2 = init_result o1
             /\ write_results o2 = write_results o1
             /\ end_result o2 = end_result o1
             /\ calls_of (wrapped (wrapped (final o2)))
                = calls_of (wrapped (final o1))
             /\ wrapped (wrapped (final o2)) = wrapped (final o1))
          (session (ExtentWriter.ctor
                      (ZP.ctor (ExtentWriter.ctor
                                  (ZP.ctor (ExtentWriter.ctor (Rec.ctor u))))))
                   fd extents block_size writes)
          (session (ExtentWriter.ctor (ZP.ctor (ExtentWriter.ctor (Rec.ctor u))))
                   fd extents block_size writes)
    /\ (forall o2 : outcome (S := ZP.t (ZP.t (Rec.t FD U))),
        session (ExtentWriter.ctor
                   (ZP.ctor (ExtentWriter.ctor
                               (ZP.ctor (ExtentWriter.ctor (Rec.ctor u))))))
                fd extents block_size writes = Ret o2 ->
        zp_counter (final o2)
        = bytes_written writes (write_results o2) mod block_size
        /\ ExtentWriter.dtor (final o2) = []
        /\ (bytes_written writes (write_results o2) mod block_size = 0 ->
            calls_of (wrapped (wrapped (final o2)))
            = CallInit fd extents block_size (init_result o2)
                :: forwarded writes (write_results o2)
                ++ [CallEndImpl (end_result o2)]
            /\ zp_counter (wrapped (final o2)) = 0
            /\ ExtentWriter.dtor (wrapped (final o2)) = [])
        /\ (bytes_written writes (write_results o2) mod block_size <> 0 ->
            exists pad_ok : bool,
              calls_of (wrapped (wrapped (final o2)))
              = CallInit fd extents block_size (init_result o2)
                  :: forwarded writes (write_results o2)
                  ++ CallWrite
                       (ZP.zeros (block_size
                                  - bytes_written writes (write_results o2)
                                    mod block_size))
                       (block_size
                        - bytes_written writes (write_results o2)
                          mod block_size)
                       pad_ok
                     :: (if pad_ok then [CallEndImpl (end_result o2)] else [])
              /\ zp_counter (wrapped (final o2))
                 = (if pad_ok then 0
                    else bytes_written writes (write_results o2)
                         mod block_size)
              /\ (pad_ok = false -> end_result o2 = false)
              /\ ExtentWriter.dtor (wrapped (final o2))
                 = if pad_ok then []
                   else ["End() not called on ExtentWriter."%string]))
    /\ (forall o1 : outcome (S := ZP.t (Rec.t FD U)),
        session (ExtentWriter.ctor (ZP.ctor (ExtentWriter.ctor (Rec.ctor u))))
                fd extents block_size writes = Ret o1 ->
        ExtentWriter.dtor (final o1) = []).
Proof.
  intros FD U inst u fd extents block_size writes Hbs Hfit.
  assert (Hquiet : forall (S : Type) (inst' : ExtentWriterOps FD S)
                          (w : ExtentWriter.t S) (o : outcome (S := S)),
    session w fd extents block_size writes = Ret o ->
    ExtentWriter.dtor (final o) = []).
  { intros S inst' w o Hrun.
    destruct (session_inv _ _ _ _ _ _ Hrun) as (w0 & w1 & _ & _ & Hend).
    destruct (End_sets_flag _ _ _ Hend) as [Hflag _].
    unfold ExtentWriter.dtor. rewrite Hflag. reflexivity. }
  split; [|split].
  - pose proof (stacked_session (ExtentWriter.ctor (Rec.ctor u)) fd extents
                  block_size writes Hbs) as Hsame.
    destruct (session (ExtentWriter.ctor (ZP.ctor (ExtentWriter.ctor
                (ZP.ctor (ExtentWriter.ctor (Rec.ctor u))))))
                fd extents block_size writes) as [o2|f2];
      destruct (session (ExtentWriter.ctor (ZP.ctor (ExtentWriter.ctor
                  (Rec.ctor u)))) fd extents block_size writes) as [o1|f1];
      cbn [agree] in Hsame |- *; try exact Hsame.
    destruct Hsame as (Hi & Hw & He & Hfin).
    rewrite Hfin. auto.
  - intros o2 Hrun.
    destruct (stacked_session_recorded u fd extents block_size writes o2
                Hrun Hbs Hfit) as (Hc & Heven & Hodd).
    split; [exact Hc|]. split; [exact (Hquiet _ _ _ _ Hrun)|]. split.
    + intros Hz. destruct (Heven Hz) as (Hcalls & Hin & Hflag).
      repeat split; try assumption.
      unfold ExtentWriter.dtor. rewrite Hflag. reflexivity.
    + intros Hnz. destruct (Hodd Hnz) as (pad_ok & Hcalls & Hin & Hflag & Hfail).
      exists pad_ok. repeat split; try assumption.
      unfold ExtentWriter.dtor. rewrite Hflag. destruct pad_ok; reflexivity.
  - intros o1 Hrun. exact (Hquiet _ _ _ _ Hrun).
Qed.

Lemma stacked_zero_pad_outer_pads_witness :
  exists o2,
    session (ExtentWriter.ctor
               (ZP.ctor (ExtentWriter.ctor
                           (ZP.ctor (ExtentWriter.ctor
                                       (Rec.ctor (FD := TargetLog)
                                          (D.ctor (FD := TargetLog))))))))
            (Some (mkTargetLog [])) [mkExtent 0 2] 4
            [[x01; x02; x03]; [x04; x05]] = Ret o2
    /\ write_results o2 = [true; true]
    /\ zp_counter (final o2) = 1
    /\ zp_counter (wrapped (final o2)) = 0
    /\ calls_of (wrapped (wrapped (final o2)))
       = [CallInit (Some (mkTargetLog [])) [mkExtent 0 2] 4 true;
          CallWrite [x01; x02; x03] 3 true;
          CallWrite [x04; x05] 2 true;
          CallWrite [x00; x00; x00] 3 true;
          CallEndImpl true].
Proof.
  destruct (session _ _ _ _ _) as [o2|f] eqn:Hrun;
    [|vm_compute in Hrun; discriminate].
  exists o2. split; [reflexivity|].
  destruct (proj1 (proj2 (stacked_zero_pad_outer_pads
                            TargetLog (D.t TargetLog) _ D.ctor
                            (Some (mkTargetLog [])) [mkExtent 0 2] 4
                            [[x01; x02; x03]; [x04; x05]]
                            eq_refl ltac:(buffers_all_fit))) o2 Hrun)
    as (Hc & _ & _ & _).
  vm_compute in Hrun. injection Hrun as <-.
  repeat split; reflexivity.
Defined.

(** C5 as the claim words it, refuted on two sessions.  In
    [watched_session] the record between the two decorators shows that it is
    the outer decorator that writes the padding, three zero bytes after the
    five of the caller, and that the inner decorator, its counter at zero,
    adds nothing to what it is given.  In [refused_padding_stacked] and
    [refused_padding_single] the caller is returned the same values, but the
    inner decorator of the two is destroyed without its [End] and writes to
    the error log, while the decorator of the session through one does
    not. *)
Lemma stacked_outer_decorator_pads :
  match watched_session with
  | Ret o =>
    calls_of (wrapped (final o))
    = [CallInit (Some (mkTargetLog [])) [mkExtent 0 2] 4 true;
       CallWrite [x01; x02; x03] 3 true;
       CallWrite [x04; x05] 2 true;
       CallWrite [x00; x00; x00] 3 true;
       CallEndImpl true]
    /\ calls_of (ZP.underlying_extent_writer_
                   (Rec.inner (ExtentWriter.derived (wrapped (final o)))))
       = calls_of (wrapped (final o))
    /\ ZP.bytes_written_mod_block_size_
         (Rec.inner (ExtentWriter.derived (wrapped (final o)))) = 0
  | Fault _ => False
  end
  /\ match refused_padding_stacked, refused_padding_single with
     | Ret o2, Ret o1 =>
       end_result o2 = false /\ end_result o1 = false
       /\ ExtentWriter.dtor (final o2) = []
       /\ ExtentWriter.dtor (wrapped (final o2))
          = ["End() not called on ExtentWriter."%string]
       /\ ExtentWriter.dtor (final o1) = []
     | _, _ => False
     end.
Proof. vm_compute. repeat split; reflexivity. Qed.

(** * Further properties of the code in the header *)

(** ** What the operations of a decorator do to its counter *)

Section DecoratorLife.
Context {FD U : Type} `{ExtentWriterOps FD U}.

(** One operation: only a [Write] that returns [true] moves the counter. *)
Lemma zp_perform_counter (w w' : ExtentWriter.t (ZP.t U))
    (o : operation FD) (r : bool) :
  perform w o = Ret (r, w') ->
  is_uint32 (zp_block_size w) ->
  aligned_counter (zp_block_size w) (zp_counter w) ->
  well_sized (zp_block_size w) o ->
  zp_block_size w' = zp_block_size w
  /\ aligned_counter (zp_block_size w) (zp_counter w')
  /\ zp_counter w'
     = (zp_counter w + ops_bytes [o] [r]) mod zp_block_size w.
Proof.
  intros Hrun Hbs Hal Hsize.
  assert (Hsame : zp_counter w = (zp_counter w + 0) mod zp_block_size w).
  { rewrite N.add_0_r. destruct Hal as [Hz|Hlt].
    - rewrite Hz. symmetry. apply N.Div0.mod_0_l.
    - symmetry. apply N.mod_small. exact Hlt. }
  destruct o as [fd extents block_size|bytes|];
    cbn [perform well_sized ops_bytes] in *.
  - destruct (zp_Init_keeps _ _ _ _ _ _ Hrun) as (Hb & Hc & _).
    rewrite Hb, Hc. repeat split; auto.
  - destruct (zp_Write_step _ _ _ _ Hrun Hbs Hal Hsize)
      as (_ & Hb & _ & Hal' & _ & Hc).
    repeat split; auto. rewrite Hc. destruct r.
    + f_equal; lia.
    + rewrite N.add_0_r. rewrite N.add_0_r in Hsame. exact Hsame.
  - destruct (zp_End_keeps _ _ _ Hrun) as (Hb & Hc & _).
    rewrite Hb, Hc. repeat split; auto.
Qed.

End DecoratorLife.

(** From a decorator with an aligned counter, over operations whose [Init]
    calls pass the block size it has: the counter moves by the bytes of the
    [Write] calls that returned [true], modulo the block size. *)
Lemma zp_perform_all_counter :
  forall (FD U : Type) (inst : ExtentWriterOps FD U)
         (ops : list (operation FD)) (w w' : ExtentWriter.t (ZP.t U))
         (rs : list bool),
    perform_all w ops = Ret (rs, w') ->
    is_uint32 (zp_block_size w) ->
    aligned_counter (zp_block_size w) (zp_counter w) ->
    Forall (well_sized (zp_block_size w)) ops ->
    zp_block_size w' = zp_block_size w
    /\ aligned_counter (zp_block_size w) (zp_counter w')
    /\ zp_counter w'
       = (zp_counter w + ops_bytes ops rs) mod zp_block_size w.
Proof.
  intros FD U inst ops.
  induction ops as [|o ops IH]; intros w w' rs Hrun Hbs Hal Hsize.
  - inversion Hrun. subst. cbn [ops_bytes]. repeat split; auto.
    rewrite N.add_0_r. destruct Hal as [Hz|Hlt].
    + rewrite Hz. symmetry. apply N.Div0.mod_0_l.
    + symmetry. apply N.mod_small. exact Hlt.
  - cbn [perform_all] in Hrun.
    destruct (perform w o) as [[r w1]|f] eqn:Hstep; cbn [bind] in Hrun;
      [|discriminate].
    destruct (perform_all w1 ops) as [[rs1 w2]|f] eqn:Hrest;
      cbn [bind] in Hrun; [|discriminate].
    injection Hrun as <- <-. inversion Hsize as [|? ? Ho Hsize']. subst.
    destruct (zp_perform_counter _ _ _ _ Hstep Hbs Hal Ho)
      as (Hb1 & Hal1 & Hc1).
    rewrite <- Hb1 in Hbs, Hal1, Hsize'.
    destruct (IH _ _ _ Hrest Hbs Hal1 Hsize') as (Hb2 & Hal2 & Hc2).
    rewrite Hb1 in *.
    split; [congruence|]. split; [exact Hal2|].
    rewrite Hc2, Hc1. cbn [ops_bytes].
    rewrite N.Div0.add_mod_idemp_l. f_equal. lia.
Qed.

(** X2: take a decorator as its constructor leaves it and perform [Init]
    followed by any sequence of [Init], [Write] and [End] calls, every [Init]
    passing the same block size (one a [uint32_t] holds) and every buffer
    being no longer than an object can be.  If the calls all return, the
    counter ends at the number of bytes of all the [Write] calls that
    returned [true], modulo the block size: neither a later [Init] nor [End]
    resets it, and the padding that [End] writes is not counted. *)
Theorem zero_pad_counter_over_operations :
  forall (FD U : Type) (inst : ExtentWriterOps FD U) (u : ExtentWriter.t U)
         (fd : option FD) (extents : list Extent) (block_size : N)
         (ops : list (operation FD)) (w' : ExtentWriter.t (ZP.t U))
         (rs : list bool),
    perform_all (ExtentWriter.ctor (ZP.ctor u))
                (OpInit fd extents block_size :: ops) = Ret (rs, w') ->
    is_uint32 block_size ->
    Forall (well_sized block_size) ops ->
    zp_block_size w' = block_size
    /\ zp_counter w'
       = ops_bytes (OpInit fd extents block_size :: ops) rs mod block_size.
Proof.
  intros FD U inst u fd extents block_size ops w' rs Hrun Hbs Hsize.
  cbn [perform_all perform] in Hrun.
  destruct (ExtentWriter.Init (ExtentWriter.ctor (ZP.ctor u)) fd extents
              block_size) as [[r0 w0]|f] eqn:Hinit; cbn [bind] in Hrun;
    [|discriminate].
  destruct (perform_all w0 ops) as [[rs1 w1]|f] eqn:Hrest; cbn [bind] in Hrun;
    [|discriminate].
  injection Hrun as <- <-.
  destruct (zp_Init_keeps _ _ _ _ _ _ Hinit) as (Hb0 & Hc0 & _).
  cbn in Hc0.
  destruct (zp_perform_all_counter _ _ _ ops w0 w1 rs1 Hrest)
    as (Hb1 & _ & Hc1).
  - rewrite Hb0. exact Hbs.
  - left. exact Hc0.
  - rewrite Hb0. exact Hsize.
  - rewrite Hb1, Hc1, Hb0, Hc0. split; [reflexivity|].
    cbn [ops_bytes]. reflexivity.
Qed.

Lemma zero_pad_counter_over_operations_witness :
  exists rs w',
    perform_all
      (ExtentWriter.ctor (ZP.ctor (ExtentWriter.ctor (D.ctor (FD := TargetLog)))))
      [OpInit (Some (mkTargetLog [])) [mkExtent 0 4] 4;
       OpWrite [x01; x02; x03];
       OpEnd;
       OpInit (Some (mkTargetLog [])) [mkExtent 0 4] 4;
       OpWrite [x04; x05]]
    = Ret (rs, w')
    /\ rs = [true; true; true; true; true]
    /\ zp_block_size w' = 4
    /\ zp_counter w' = 1.
Proof.
  destruct (perform_all _ _) as [[rs w']|f] eqn:Hrun;
    [|vm_compute in Hrun; discriminate].
  exists rs, w'. split; [reflexivity|].
  assert (Hrs : rs = [true; true; true; true; true])
    by (vm_compute in Hrun; injection Hrun as <- _; reflexivity).
  split; [exact Hrs|].
  destruct (zero_pad_counter_over_operations _ _ _ _ _ _ _ _ _ _ Hrun)
    as (Hb & Hc).
  - reflexivity.
  - repeat (apply Forall_cons;
            [first [reflexivity | exact I | vm_compute; discriminate]|]).
    apply Forall_nil.
  - split; [exact Hb|]. rewrite Hc, Hrs. reflexivity.
Defined.

(** ** What a finalized session leaves in the wrapped writer *)

Lemma bytes_accepted_app (FD : Type) (a b : list (call FD)) :
  bytes_accepted (a ++ b) = bytes_accepted a + bytes_accepted b.
Proof.
  induction a as [|c a IH]; [reflexivity|].
  destruct c as [fd extents block_size r|bytes count [|]|r];
    cbn [app bytes_accepted]; rewrite IH; lia.
Qed.

Lemma bytes_accepted_forwarded (FD : Type) (writes : list (list byte)) :
  forall rs : list bool,
    bytes_accepted (forwarded (FD := FD) writes rs) = bytes_written writes rs.
Proof.
  induction writes as [|b writes IH]; intros [|[|] rs];
    cbn [forwarded bytes_written bytes_accepted]; try reflexivity;
    rewrite IH; reflexivity.
Qed.

(** At the end of the [Write] calls of a session the counter of a decorator
    is the number of bytes written modulo the block size, and aligned. *)
Lemma zero_pad_session_counter (FD U : Type) (inst : ExtentWriterOps FD U)
    (u : ExtentWriter.t U) (fd : option FD) (extents : list Extent)
    (block_size : N) (writes : list (list byte))
    (o : outcome (S := ZP.t U)) :
  session (ExtentWriter.ctor (ZP.ctor u)) fd extents block_size writes = Ret o ->
  is_uint32 block_size ->
  buffers_fit writes ->
  aligned_counter block_size
    (bytes_written writes (write_results o) mod block_size).
Proof.
  intros Hrun Hbs Hfit.
  destruct (session_inv _ _ _ _ _ _ Hrun) as (w0 & w1 & Hinit & Hwrites & _).
  destruct (zp_Init_keeps _ _ _ _ _ _ Hinit) as (Hb0 & Hc0 & _).
  cbn in Hc0.
  destruct (zp_write_all writes w0 w1 (write_results o) Hwrites)
    as (_ & _ & _ & Hal & Hc);
    [rewrite Hb0; exact Hbs | rewrite Hc0; left; reflexivity | exact Hfit |].
  rewrite Hc, Hb0, Hc0 in Hal. exact Hal.
Qed.

(** X1: when [End] of a decorator returns [true] at the end of a session,
    the bytes the wrapped writer has accepted, padding included, are a whole
    number of blocks: the smallest such number that holds the bytes written
    by the caller. *)
Theorem zero_pad_session_block_aligned :
  forall (FD U : Type) (inst : ExtentWriterOps FD U) (u : U)
         (fd : option FD) (extents : list Extent) (block_size : N)
         (writes : list (list byte))
         (o : outcome (S := ZP.t (Rec.t FD U))),
    session (ExtentWriter.ctor (ZP.ctor (ExtentWriter.ctor (Rec.ctor u))))
            fd extents block_size writes = Ret o ->
    is_uint32 block_size ->
    buffers_fit writes ->
    end_result o = true ->
    bytes_accepted (calls_of (wrapped (final o))) mod block_size = 0
    /\ bytes_written writes (write_results o)
       <= bytes_accepted (calls_of (wrapped (final o)))
    /\ (block_size <> 0 ->
        bytes_accepted (calls_of (wrapped (final o)))
        < bytes_written writes (write_results o) + block_size).
Proof.
  intros FD U inst u fd extents block_size writes o Hrun Hbs Hfit Hend.
  pose proof (zero_pad_session_counter _ _ _ _ _ _ _ _ _ Hrun Hbs Hfit) as Hal.
  destruct (zero_pad_session_calls u fd extents block_size writes o
              Hrun Hbs Hfit) as [Heven Hodd].
  set (total := bytes_written writes (write_results o)) in *.
  destruct (N.eq_dec (total mod block_size) 0) as [Hz|Hnz].
  - destruct (Heven Hz) as [-> _].
    cbn [bytes_accepted]. rewrite bytes_accepted_app, bytes_accepted_forwarded.
    cbn [bytes_accepted]. fold total. rewrite N.add_0_r.
    clearbody total. split; [exact Hz|]. split; lia.
  - destruct (Hodd Hnz) as (pad_ok & -> & Hfail & _).
    destruct pad_ok; [|rewrite Hfail in Hend by reflexivity; discriminate].
    cbn [bytes_accepted]. rewrite bytes_accepted_app, bytes_accepted_forwarded.
    cbn [bytes_accepted]. fold total. rewrite N.add_0_r.
    clearbody total.
    assert (Hlt : total mod block_size < block_size)
      by (destruct Hal; [contradiction | assumption]).
    assert (Hbnz : block_size <> 0)
      by (intros Hb0; rewrite Hb0 in Hlt; exact (N.nlt_0_r _ Hlt)).
    pose proof (N.div_mod total block_size Hbnz) as Hdiv.
    clear Hal Heven Hodd Hfail.
    set (c := total mod block_size) in *. set (q := total / block_size) in *.
    clearbody c q.
    split; [|split; lia].
    replace (total + (block_size - c)) with ((q + 1) * block_size) by lia.
    apply N.Div0.mod_mul.
Qed.

Lemma zero_pad_session_block_aligned_witness :
  exists o,
    unaligned_session = Ret o
    /\ bytes_accepted (calls_of (wrapped (final o))) mod 4096 = 0
    /\ bytes_written [repeat x01 (N.to_nat 4096); repeat x02 (N.to_nat 100)]
         (write_results o)
       <= bytes_accepted (calls_of (wrapped (final o)))
    /\ (4096 <> 0 ->
        bytes_accepted (calls_of (wrapped (final o)))
        < bytes_written [repeat x01 (N.to_nat 4096); repeat x02 (N.to_nat 100)]
            (write_results o) + 4096).
Proof.
  destruct unaligned_session as [o|f] eqn:Hrun; [|vm_compute in Hrun; discriminate].
  exists o. split; [reflexivity|].
  apply (zero_pad_session_block_aligned TargetLog (D.t TargetLog) _ D.ctor
           (Some (mkTargetLog [])) [mkExtent 0 2]).
  - exact Hrun.
  - reflexivity.
  - buffers_all_fit.
  - vm_compute in Hrun. injection Hrun as <-. reflexivity.
Defined.

(** ** [End] more than once, and what [End] leaves behind *)

Section EndOfDecorator.
Context {FD U : Type} `{ExtentWriterOps FD U}.

(** The calls one [End] of a decorator with a non-zero counter makes on a
    recording writer. *)
Lemma zp_End_padding_calls (w w' : ExtentWriter.t (ZP.t (Rec.t FD U)))
    (r : bool) :
  ExtentWriter.End w = Ret (r, w') ->
  zp_counter w <> 0 ->
  exists pad_ok : bool,
    calls_of (wrapped w')
    = calls_of (wrapped w)
      ++ CallWrite (padding_of w) (count_of (padding_of w)) pad_ok
         :: (if pad_ok then [CallEndImpl r] else [])
    /\ (pad_ok = false -> r = false).
Proof.
  rewrite zp_End_cases. intros Hend Hnz.
  apply N.eqb_neq in Hnz. rewrite Hnz in Hend. fold (padding_of w) in Hend.
  destruct (OBJECT_MAX <? _); [discriminate|].
  destruct (ExtentWriter.Write (wrapped w) (padding_of w))
    as [[pad_ok u1]|f] eqn:Hpad; cbn [bind] in Hend; [|discriminate].
  destruct (rec_Write_calls _ _ _ _ Hpad) as [Hcalls1 _].
  exists pad_ok. destruct pad_ok.
  - destruct (ExtentWriter.End u1) as [[r1 u2]|f] eqn:Hend1;
      cbn [bind] in Hend; [|discriminate].
    injection Hend as <- <-.
    destruct (rec_End_calls _ _ _ Hend1) as [Hcalls2 _].
    cbn [wrapped ExtentWriter.derived ZP.underlying_extent_writer_].
    rewrite Hcalls2, Hcalls1, <- app_assoc.
    split; [reflexivity | discriminate].
  - injection Hend as <- <-.
    cbn [wrapped ExtentWriter.derived ZP.underlying_extent_writer_].
    rewrite Hcalls1. split; reflexivity.
Qed.

(** An [End] that returns [true] has ended in a call of [End] on the wrapped
    writer that returned [true]. *)
Lemma zp_End_true_delegated (w w' : ExtentWriter.t (ZP.t U)) :
  ExtentWriter.End w = Ret (true, w') ->
  exists u1, ExtentWriter.End u1 = Ret (true, wrapped w').
Proof.
  rewrite zp_End_cases.
  destruct (zp_counter w =? 0).
  - destruct (ExtentWriter.End (wrapped w)) as [[r u]|f] eqn:Hend0;
      cbn [bind]; intros Hr; [|discriminate].
    injection Hr as -> <-. exists (wrapped w). exact Hend0.
  - destruct (OBJECT_MAX <? _); [discriminate|].
    destruct (ExtentWriter.Write (wrapped w) _) as [[[|] u]|f]; cbn [bind];
      try discriminate.
    destruct (ExtentWriter.End u) as [[r u']|f] eqn:Hend0; cbn [bind];
      intros Hr; [|discriminate].
    injection Hr as -> <-. exists u. exact Hend0.
Qed.

(** What [End] of a decorator does to the flag of the wrapped writer. *)
Lemma zp_End_wrapped_flag (w w' : ExtentWriter.t (ZP.t U)) (r : bool) :
  ExtentWriter.End w = Ret (r, w') ->
  ExtentWriter.end_called_ (wrapped w') = true
  \/ (r = false
      /\ zp_counter w <> 0
      /\ ExtentWriter.end_called_ (wrapped w')
         = ExtentWriter.end_called_ (wrapped w)).
Proof.
  rewrite zp_End_cases.
  destruct (N.eqb_spec (zp_counter w) 0) as [Hz|Hnz].
  - destruct (ExtentWriter.End (wrapped w)) as [[r1 u]|f] eqn:Hend0;
      cbn [bind]; intros Hr; [|discriminate].
    injection Hr as _ <-. left. apply (End_sets_flag _ _ _ Hend0).
  - destruct (OBJECT_MAX <? _); [discriminate|].
    destruct (ExtentWriter.Write (wrapped w) _) as [[[|] u]|f] eqn:Hpad;
      cbn [bind]; try discriminate.
    + destruct (ExtentWriter.End u) as [[r1 u']|f] eqn:Hend0; cbn [bind];
        intros Hr; [|discriminate].
      injection Hr as _ <-. left. apply (End_sets_flag _ _ _ Hend0).
    + intros Hr. injection Hr as <- <-. right.
      split; [reflexivity|]. split; [exact Hnz|].
      pose proof (perform_flag (wrapped w) u (OpWrite _) false Hpad) as Hflag.
      cbn [is_OpEnd] in Hflag. rewrite orb_false_r in Hflag. exact Hflag.
Qed.

End EndOfDecorator.

(** X3: [End] does not clear the counter of a decorator, so a second [End]
    on a decorator whose counter is not zero asks the wrapped writer for the
    same padding again: the wrapped writer receives the padding write of the
    first [End], its [End] if that write succeeded, and then the same padding
    write a second time. *)
Theorem zero_pad_End_twice_pads_twice :
  forall (FD U : Type) (inst : ExtentWriterOps FD U)
         (w w1 w2 : ExtentWriter.t (ZP.t (Rec.t FD U))) (r1 r2 : bool),
    zp_counter w <> 0 ->
    ExtentWriter.End w = Ret (r1, w1) ->
    ExtentWriter.End w1 = Ret (r2, w2) ->
    zp_counter w2 = zp_counter w
    /\ exists p1 p2 : bool,
         calls_of (wrapped w2)
         = calls_of (wrapped w)
           ++ CallWrite (padding_of w) (count_of (padding_of w)) p1
              :: (if p1 then [CallEndImpl r1] else [])
           ++ CallWrite (padding_of w) (count_of (padding_of w)) p2
              :: (if p2 then [CallEndImpl r2] else []).
Proof.
  intros FD U inst w w1 w2 r1 r2 Hnz Hend1 Hend2.
  destruct (zp_End_keeps _ _ _ Hend1) as (Hb1 & Hc1 & _).
  destruct (zp_End_keeps _ _ _ Hend2) as (Hb2 & Hc2 & _).
  split; [congruence|].
  destruct (zp_End_padding_calls _ _ _ Hend1 Hnz) as (p1 & Hcalls1 & _).
  destruct (zp_End_padding_calls _ _ _ Hend2) as (p2 & Hcalls2 & _);
    [congruence|].
  exists p1, p2. rewrite Hcalls2, Hcalls1.
  unfold padding_of. rewrite Hb1, Hc1, <- app_assoc. reflexivity.
Qed.

Lemma zero_pad_End_twice_pads_twice_witness :
  exists w1 w2,
    ExtentWriter.End
      (ExtentWriter.mk false
         (ZP.mk (ExtentWriter.ctor
                   (Rec.ctor (D.mk (Some (mkTargetLog [])) 4 3
                                   [mkExtent 0 4] 0)))
                4 3))
    = Ret (true, w1)
    /\ ExtentWriter.End w1 = Ret (true, w2)
    /\ calls_of (wrapped w2)
       = [CallWrite [x00] 1 true; CallEndImpl true;
          CallWrite [x00] 1 true; CallEndImpl true].
Proof.
  eexists. eexists. split; [reflexivity|]. split; [reflexivity|].
  destruct (zero_pad_End_twice_pads_twice TargetLog (D.t TargetLog) _
              (ExtentWriter.mk false
                 (ZP.mk (ExtentWriter.ctor
                           (Rec.ctor (D.mk (Some (mkTargetLog [])) 4 3
                                           [mkExtent 0 4] 0)))
                        4 3))
              _ _ true true ltac:(discriminate) eq_refl eq_refl)
    as (_ & p1 & p2 & Hcalls).
  reflexivity.
Defined.

(** X4: after [End] on a decorator the decorator has [end_called_] set,
    whatever [End] returned.  The wrapped writer has it set whenever [End]
    returned [true]; it is left as it was only when the padding write failed,
    and [End] then returned [false].  With two decorators on top of each
    other, an [End] that returns [true] leaves no object of the chain whose
    destructor writes to the error log. *)
Theorem zero_pad_End_finalizes_chain :
  forall (FD U : Type) (inst : ExtentWriterOps FD U),
    (forall (w w' : ExtentWriter.t (ZP.t U)) (r : bool),
        ExtentWriter.End w = Ret (r, w') ->
        ExtentWriter.dtor w' = []
        /\ (r = true -> ExtentWriter.dtor (wrapped w') = [])
        /\ (ExtentWriter.end_called_ (wrapped w') = false ->
            r = false
            /\ zp_counter w <> 0
            /\ ExtentWriter.end_called_ (wrapped w) = false))
    /\ (forall d d' : ExtentWriter.t (ZP.t (ZP.t U)),
        ExtentWriter.End d = Ret (true, d') ->
        ExtentWriter.dtor d' = []
        /\ ExtentWriter.dtor (wrapped d') = []
        /\ ExtentWriter.dtor (wrapped (wrapped d')) = []).
Proof.
  intros FD U inst.
  assert (Hquiet : forall (S : Type) (x : ExtentWriter.t S),
    ExtentWriter.end_called_ x = true -> ExtentWriter.dtor x = []).
  { intros S x Hx. unfold ExtentWriter.dtor. rewrite Hx. reflexivity. }
  assert (Hone : forall (V : Type) (instV : ExtentWriterOps FD V)
                        (w w' : ExtentWriter.t (ZP.t V)),
    ExtentWriter.End w = Ret (true, w') ->
    ExtentWriter.end_called_ (wrapped w') = true).
  { intros V instV w w' Hend.
    destruct (zp_End_wrapped_flag _ _ _ Hend) as [Hset|(Hr & _)];
      [exact Hset | discriminate]. }
  split.
  - intros w w' r Hend.
    destruct (zp_End_keeps _ _ _ Hend) as (_ & _ & Hflag).
    split; [apply Hquiet; exact Hflag|]. split.
    + intros ->. apply Hquiet. exact (Hone _ _ _ _ Hend).
    + intros Hunset.
      destruct (zp_End_wrapped_flag _ _ _ Hend) as [Hset|(Hr & Hnz & Hsame)];
        [congruence|].
      split; [exact Hr|]. split; [exact Hnz | congruence].
  - intros d d' Hend.
    destruct (zp_End_keeps _ _ _ Hend) as (_ & _ & Hflag).
    destruct (zp_End_true_delegated _ _ Hend) as (u1 & Hinner).
    split; [apply Hquiet; exact Hflag|].
    split; apply Hquiet.
    + exact (Hone _ _ _ _ Hend).
    + exact (Hone _ _ _ _ Hinner).
Qed.

Lemma zero_pad_End_finalizes_chain_witness :
  exists d',
    ExtentWriter.End
      (ExtentWriter.ctor
         (ZP.ctor (ExtentWriter.ctor
                     (ZP.ctor (ExtentWriter.ctor (D.ctor (FD := TargetLog)))))))
    = Ret (true, d')
    /\ ExtentWriter.dtor d' = []
    /\ ExtentWriter.dtor (wrapped d') = []
    /\ ExtentWriter.dtor (wrapped (wrapped d')) = [].
Proof.
  eexists. split; [reflexivity|].
  apply (proj2 (zero_pad_End_finalizes_chain TargetLog (D.t TargetLog) _)
           (ExtentWriter.ctor
              (ZP.ctor (ExtentWriter.ctor
                          (ZP.ctor (ExtentWriter.ctor D.ctor)))))).
  reflexivity.
Defined.

(** ** A decorator of a direct writer, and a decorator without block size *)

(** X5: [End] on a decorator of a direct writer, by the counter of the
    decorator.  At zero it returns [true] and leaves the direct writer's
    members as they were.  Up to the block size (a [uint32_t]) it returns
    what the write of the padding returned, the direct writer's own [EndImpl]
    adding no failure of its own, and the direct writer ends up finalized
    exactly when that write succeeded or it was finalized before.  Above the
    block size, where a second [Init] with a smaller block size can take it,
    the length of the padding wraps and [End] ends in the length error of the
    buffer of zeros, without a value. *)
Theorem zero_pad_over_direct_End :
  forall (FD : Type) (inst : FileDescriptor FD)
         (w : ExtentWriter.t (ZP.t (D.t FD))),
    (zp_counter w = 0 ->
     ExtentWriter.End w
     = Ret (true,
            ExtentWriter.mk true
              (ZP.mk (ExtentWriter.mk true (ExtentWriter.derived (wrapped w)))
                     (zp_block_size w) (zp_counter w))))
    /\ (zp_counter w <> 0 ->
        zp_counter w <= zp_block_size w ->
        is_uint32 (zp_block_size w) ->
        exists (s : D.write_status) (d : D.t FD),
          D.Write_status (ExtentWriter.derived (wrapped w))
                         (ZP.zeros (zp_block_size w - zp_counter w))
          = (s, d)
          /\ ExtentWriter.End w
             = Ret (D.succeeded s,
                    ExtentWriter.mk true
                      (ZP.mk (ExtentWriter.mk
                                (D.succeeded s
                                 || ExtentWriter.end_called_ (wrapped w)) d)
                             (zp_block_size w) (zp_counter w))))
    /\ (zp_block_size w < zp_counter w ->
        zp_counter w <= UINT32_MODULUS ->
        ExtentWriter.End w = Fault LengthError).
Proof.
  intros FD inst w. rewrite zp_End_cases. split; [|split].
  - intros Hc. rewrite Hc. reflexivity.
  - intros Hc Hle Hbs. apply N.eqb_neq in Hc. rewrite Hc.
    unfold is_uint32 in Hbs. pose proof uint32_below_size as Hbig.
    rewrite size_sub_small by lia.
    rewrite (padding_fits _ _ Hbs).
    destruct (direct_Write_run (wrapped w)
                (ZP.zeros (zp_block_size w - zp_counter w)))
      as (s & d & _ & Hst & Hcall).
    exists s, d. split; [exact Hst|].
    rewrite Hcall. cbn [bind]. destruct (D.succeeded s); reflexivity.
  - intros Hlt Hc32.
    assert (Hnz : (zp_counter w =? 0) = false) by (apply N.eqb_neq; lia).
    rewrite Hnz.
    assert (Hlong : (OBJECT_MAX
                     <? size_sub (zp_block_size w) (zp_counter w)) = true).
    { apply N.ltb_lt. unfold size_sub. pose proof uint32_below_size as Hbig.
      rewrite N.mod_small by lia. lia. }
    rewrite Hlong. reflexivity.
Qed.

Lemma zero_pad_over_direct_End_witness :
  exists rs w,
    perform_all
      (ExtentWriter.ctor (ZP.ctor (ExtentWriter.ctor (D.ctor (FD := TargetLog)))))
      [OpInit (Some (mkTargetLog [])) [mkExtent 0 2] 8;
       OpWrite [x01; x02; x03; x04; x05; x06];
       OpInit (Some (mkTargetLog [])) [mkExtent 0 2] 4]
    = Ret (rs, w)
    /\ rs = [true; true; true]
    /\ zp_block_size w = 4
    /\ zp_counter w = 6
    /\ ExtentWriter.End w = Fault LengthError.
Proof.
  eexists. eexists. split; [reflexivity|].
  split; [reflexivity|]. split; [reflexivity|]. split; [reflexivity|].
  apply (proj2 (proj2 (zero_pad_over_direct_End TargetLog _ _))).
  - reflexivity.
  - vm_compute. discriminate.
Defined.

(** X6: through a decorator whose block size is zero, as the constructor
    leaves it or as [Init] with zero sets it, no [Write] call returns [true]:
    a sequence of [Write] calls that ends without a fault has returned
    [false] every time and has left the counter and the block size as they
    were. *)
Theorem zero_pad_no_block_size_no_success :
  forall (FD U : Type) (inst : ExtentWriterOps FD U)
         (writes : list (list byte)) (w w' : ExtentWriter.t (ZP.t U))
         (rs : list bool),
    zp_block_size w = 0 ->
    write_all w writes = Ret (rs, w') ->
    rs = repeat false (length writes)
    /\ zp_counter w' = zp_counter w
    /\ zp_block_size w' = 0.
Proof.
  intros FD U inst writes.
  induction writes as [|b writes IH]; intros w w' rs Hz Hrun.
  - inversion Hrun. subst. repeat split; auto.
  - rewrite write_all_cons, zp_Write_cases, Hz in Hrun.
    destruct (ExtentWriter.Write (wrapped w) b) as [[[|] u]|f];
      cbn [N.eqb bind] in Hrun; try discriminate.
    destruct (write_all _ writes) as [[rs1 w2]|f] eqn:Hrest;
      cbn [bind] in Hrun; [|discriminate].
    injection Hrun as <- <-.
    destruct (IH _ _ _ (eq_refl : zp_block_size (ExtentWriter.mk _ (ZP.mk u 0 _))
                                   = 0) Hrest) as (-> & Hc & Hb).
    cbn [length repeat]. repeat split; auto.
Qed.

Lemma zero_pad_no_block_size_no_success_witness :
  exists rs w',
    write_all
      (ExtentWriter.ctor (ZP.ctor (ExtentWriter.ctor (D.ctor (FD := TargetLog)))))
      [[x01]; [x02; x03]]
    = Ret (rs, w')
    /\ rs = repeat false 2
    /\ zp_counter w' = 0
    /\ zp_block_size w' = 0.
Proof.
  eexists. eexists. split; [reflexivity|].
  apply (zero_pad_no_block_size_no_success TargetLog (D.t TargetLog) _
           [[x01]; [x02; x03]]
           (ExtentWriter.ctor (ZP.ctor (ExtentWriter.ctor D.ctor)))).
  - reflexivity.
  - reflexivity.
Defined.
